(** * PyUPPAAL [iTools/ufactory.py]: the UPPAAL XML fragment factory

    A shallow embedding of the class [UFactory] (declaration, query,
    location, transition and template builders, and the linear monitor
    synthesizers built on top of them), followed by the properties of the
    synthesized templates.

    Python values are modelled as follows:
    - [int] is [Z]; [str(int)] and the f-string [f'id{n}'] print decimals;
    - [str] is [string]; the only characters the code inspects are the
      ASCII comparators and markers, so a byte string is enough;
    - an optional argument ([inv: str = None]) is [option string];
    - [ET.Element] is a tree of tag, attribute dictionary (in insertion
      order), text and children;
    - [Dict[str, str]] is an association list in insertion order, which is
      the order [dict.values()] iterates in;
    - an exception is a [Raise] result; the module-level name lookup that
      every [UppaalFactory.f(...)] call performs is explicit. *)

From Stdlib Require Import ZArith List Finite String Ascii Bool Lia.
From Stdlib Require Import DecimalString DecimalZ DecimalPos.
Import ListNotations.
Local Open Scope string_scope.
Local Open Scope Z_scope.
Local Open Scope list_scope.

(** ** Python primitives *)

(** [str(n)] for an [int]. *)
Definition py_str (n : Z) : string := NilZero.string_of_int (Z.to_int n).

(** [s.replace("", new)]: [new] before every character and at the end. *)
Fixpoint str_interleave (new s : string) : string :=
  match s with
  | EmptyString => new
  | String c s' => (new ++ String c (str_interleave new s'))%string
  end.

(** The left-to-right scan of [s.replace(old, new)] for a non-empty [old];
    [skip] counts the characters of a match that are still to be dropped. *)
Fixpoint str_replace_from (old new : string) (skip : nat) (s : string) : string :=
  match s with
  | EmptyString => EmptyString
  | String c s' =>
      match skip with
      | S k => str_replace_from old new k s'
      | O =>
          if prefix old s
          then (new ++ str_replace_from old new (String.length old - 1) s')%string
          else String c (str_replace_from old new 0 s')
      end
  end.

(** [s.replace(old, new)]: every non-overlapping occurrence, from the left. *)
Definition str_replace (old new s : string) : string :=
  match old with
  | EmptyString => str_interleave new s
  | _ => str_replace_from old new 0 s
  end.

(** [c in s] for a one-character [c]. *)
Fixpoint has_char (c : ascii) (s : string) : bool :=
  match s with
  | EmptyString => false
  | String c' s' => (Ascii.eqb c' c || has_char c s')%bool
  end.

(** Exceptions the modelled code can raise. *)
Inductive exn : Type :=
| NameError
| AttributeError
| IndexError.

Inductive result (A : Type) : Type :=
| Ok (a : A)
| Raise (e : exn).
Arguments Ok {A} a.
Arguments Raise {A} e.

Definition bind {A B : Type} (m : result A) (k : A -> result B) : result B :=
  match m with
  | Ok a => k a
  | Raise e => Raise e
  end.

Notation "x <- m ;; k" := (bind m (fun x => k))
  (at level 61, m at next level, right associativity).
Notation "' pat <- m ;; k" := (bind m (fun x => match x with pat => k end))
  (at level 61, pat pattern, m at next level, right associativity).

(** [for x in xs: body] over a loop state [s]; the first exception ends
    the loop. *)
Fixpoint for_each {A S : Type} (xs : list A) (body : A -> S -> result S) (s : S)
  : result S :=
  match xs with
  | [] => Ok s
  | x :: xs' => s' <- body x s ;; for_each xs' body s'
  end.

(** [range(n)]. *)
Definition range (n : nat) : list nat := seq 0 n.

(** [xs[i]] for [0 <= i]. *)
Definition getitem {A : Type} (xs : list A) (i : nat) : result A :=
  match nth_error xs i with
  | Some x => Ok x
  | None => Raise IndexError
  end.

(** [s.replace(old, new)] on a value that may be [None]. *)
Definition opt_replace (s : option string) (old new : string) : result string :=
  match s with
  | Some s' => Ok (str_replace old new s')
  | None => Raise AttributeError
  end.

(** ** XML elements *)

(** [ET.Element(tag, attrib)] with its [text] and appended children. *)
#[local] Set Warnings "-register-all".
Inductive Element : Type :=
| mkElement (tag : string) (attrib : list (string * string))
            (text : option string) (children : list Element).

Definition tag (e : Element) : string :=
  match e with mkElement t _ _ _ => t end.
Definition attrib (e : Element) : list (string * string) :=
  match e with mkElement _ a _ _ => a end.
Definition text (e : Element) : option string :=
  match e with mkElement _ _ t _ => t end.
Definition children (e : Element) : list Element :=
  match e with mkElement _ _ _ c => c end.

(** [e.get(key)]. *)
Fixpoint assoc_get (key : string) (a : list (string * string)) : option string :=
  match a with
  | [] => None
  | (k, v) :: a' => if String.eqb k key then Some v else assoc_get key a'
  end.
Definition get (e : Element) (key : string) : option string :=
  assoc_get key (attrib e).

(** [e.findall(t)]: the children with tag [t], in document order. *)
Definition findall (t : string) (e : Element) : list Element :=
  filter (fun c => String.eqb (tag c) t) (children e).

(** [e.find(t)]. *)
Definition find_child (t : string) (e : Element) : option Element :=
  hd_error (findall t e).

(** The first [label] child of the given [kind]. *)
Definition find_label (kind : string) (e : Element) : option Element :=
  hd_error (filter (fun c => String.eqb (tag c) "label" &&
                             match get c "kind" with
                             | Some k => String.eqb k kind
                             | None => false
                             end)%bool (children e)).

(** ** Module namespace *)

(** What a global name denotes in the namespaces considered here: the
    objects the module itself binds.  (A Python global can denote any
    object; nothing below relies on there being no others.) *)
Inductive pyobject : Type :=
| Class_UFactory
| Module_ET
| Typing_generic.

Definition globals : Type := string -> option pyobject.

(** The names bound at the top level of [ufactory.py]: the three imports
    from [typing], the alias [ET] and the class statement. *)
Definition module_globals : globals := fun name =>
  if String.eqb name "List" then Some Typing_generic
  else if String.eqb name "Tuple" then Some Typing_generic
  else if String.eqb name "Dict" then Some Typing_generic
  else if String.eqb name "ET" then Some Module_ET
  else if String.eqb name "UFactory" then Some Class_UFactory
  else None.

(** The namespace the class docstring describes
    ("usage: UppaalFactory.function(xxx)"): the class is also reachable
    under the name [UppaalFactory]. *)
Definition aliased_globals : globals := fun name =>
  if String.eqb name "UppaalFactory" then Some Class_UFactory
  else module_globals name.

(** Attributes of the class object; [__query] is stored under its mangled
    name. *)
Definition class_attributes : list string :=
  ["declaration"; "_UFactory__query"; "queries"; "location"; "transition";
   "template"; "input"; "monitor"; "strict_monitor"; "monitor_allpatterns";
   "signal_converter"]%string.

(** Evaluation of the expression [name.attr] where [attr] is one of the
    static methods below: the global [name] is looked up, then the
    attribute on the object found. *)
Definition load_method (G : globals) (name attr : string) : result unit :=
  match G name with
  | None => Raise NameError
  | Some Class_UFactory =>
      if existsb (String.eqb attr) class_attributes then Ok tt
      else Raise AttributeError
  | Some _ => Raise AttributeError
  end.

(** ** The class [UFactory] *)

(** One element of the [signals] argument: the tuple
    [(signal, guard, inv)], each of which may be [None]. *)
Record observation : Type := mkObservation {
  signal : option string;
  guard : option string;
  inv : option string
}.

(** The f-string [f'id{n}']. *)
Definition id_ref (n : Z) : string := ("id" ++ py_str n)%string.

(** [UFactory.declaration]. *)
Definition declaration (declaration : string) : Element :=
  mkElement "declaration" [] (Some declaration) [].

(** [UFactory.__query]. *)
Definition __query (query : string) : Element :=
  mkElement "query" [] None
    [mkElement "formula" [] (Some query) []; mkElement "comment" [] None []].

(** [UFactory.location]. *)
Definition location (location_id pos_x pos_y : Z) (inv name : option string)
    (is_committed : bool) : Element :=
  mkElement "location"
    [("id", id_ref location_id); ("x", py_str pos_x); ("y", py_str pos_y)]
    None
    ((match name with
      | Some nm =>
          [mkElement "name" [("x", py_str pos_x); ("y", py_str (pos_y - 20))]
             (Some nm) []]
      | None => []
      end) ++
     (match inv with
      | Some iv =>
          [mkElement "label"
             [("kind", "invariant"); ("x", py_str pos_x); ("y", py_str (pos_y - 40))]
             (Some iv) []]
      | None => []
      end) ++
     (if is_committed then [mkElement "committed" [] None []] else [])).

(** [UFactory.transition]. *)
Definition transition (sourceID targetID pos_x pos_y : Z)
    (guard sync clock_reset : option string) : Element :=
  mkElement "transition" [] None
    ([mkElement "source" [("ref", id_ref sourceID)] None [];
      mkElement "target" [("ref", id_ref targetID)] None []] ++
     (match guard with
      | Some g =>
          [mkElement "label"
             [("kind", "guard"); ("x", py_str pos_x); ("y", py_str pos_y)]
             (Some g) []]
      | None => []
      end) ++
     (match sync with
      | Some sy =>
          [mkElement "label"
             [("kind", "synchronisation"); ("x", py_str pos_x);
              ("y", py_str (pos_y - 30))]
             (Some sy) []]
      | None => []
      end) ++
     (match clock_reset with
      | Some r =>
          [mkElement "label"
             [("kind", "assignment"); ("x", py_str pos_x);
              ("y", py_str (pos_y - 60))]
             (Some r) []]
      | None => []
      end)).

(** [UFactory.template].  The text of the [declaration] child is assigned
    from [parameter], as in the source. *)
Definition template (name : string) (locations : list Element) (init_id : Z)
    (transitions : list Element) (parameter declaration : option string)
  : Element :=
  mkElement "template" [] None
    ([mkElement "name" [] (Some name) []] ++
     (match parameter with
      | Some p => [mkElement "parameter" [] (Some p) []]
      | None => []
      end) ++
     (match declaration with
      | Some _ => [mkElement "declaration" [] parameter []]
      | None => []
      end) ++
     locations ++
     [mkElement "init" [("ref", id_ref init_id)] None []] ++
     transitions).

(** [a != b] where [a] may be [None] and [b] is a [str]. *)
Definition py_ne (a : option string) (b : string) : bool :=
  match a with
  | Some s => negb (String.eqb s b)
  | None => true
  end.

(** [edge_signal_dict.values()] and [len(edge_signal_dict)]. *)
Definition values (d : list (string * string)) : list string := map snd d.
Definition len {A : Type} (xs : list A) : Z := Z.of_nat (List.length xs).

Section Synthesizers.

(** The namespace in which the bodies of the static methods look up the
    global name [UppaalFactory]. *)
Variable G : globals.

(** [UFactory.queries]. *)
Definition queries (queries : list string) : result Element :=
  elems <- for_each queries (fun query elems =>
    _ <- load_method G "UppaalFactory" "_UFactory__query" ;;
    Ok (elems ++ [__query query])) [] ;;
  Ok (mkElement "queries" [] None elems).

(** The body of the [if strict:] loop shared by [monitor] and [input];
    [sync_of_trap] is the synchronisation argument of the trap transition
    ([signals[i][0]] in [monitor], [None] in [input]). *)
Definition strict_body (signals : list observation) (init_id : Z)
    (sync_of_trap : observation -> option string)
    (i : nat) (st : list Element * list Element)
  : result (list Element * list Element) :=
  let '(locations, transitions) := st in
  let fail_location_id := init_id + len signals + Z.of_nat i + 1 in
  _ <- load_method G "UppaalFactory" "location" ;;
  o <- getitem signals i ;;
  inv' <- opt_replace (inv o) "<=" "<" ;;
  let locations :=
    locations ++ [location fail_location_id (300 * Z.of_nat i) (-200)
                    (Some inv') (Some ("fail" ++ py_str (Z.of_nat i))%string) false] in
  tr <- (if Nat.eqb i 0 then
           _ <- load_method G "UppaalFactory" "transition" ;;
           o <- getitem signals i ;;
           Ok (transition (init_id + Z.of_nat i) fail_location_id
                 (Z.of_nat i * 300 + 100) (-100) None (sync_of_trap o) None)
         else
           _ <- load_method G "UppaalFactory" "transition" ;;
           p <- getitem signals (i - 1) ;;
           g <- opt_replace (guard p) ">=" ">" ;;
           o <- getitem signals i ;;
           Ok (transition (init_id + Z.of_nat i) fail_location_id
                 (Z.of_nat i * 300 + 100) (-100) (Some g) (sync_of_trap o) None)) ;;
  Ok (locations, transitions ++ [tr]).

(** The body shared by [monitor] and [input], which differ in the name of
    the tail location and in the synchronisation of the trap transitions. *)
Definition linear_chain (tail_name : string)
    (sync_of_trap : observation -> option string)
    (monitor_name : string) (signals : list observation) (init_id : Z)
    (strict : bool) : result Element :=
  locations <- for_each (range (List.length signals)) (fun i locations =>
    _ <- load_method G "UppaalFactory" "location" ;;
    o <- getitem signals i ;;
    Ok (locations ++ [location (init_id + Z.of_nat i) (300 * Z.of_nat i) 200
                        (inv o) None false])) [] ;;
  _ <- load_method G "UppaalFactory" "location" ;;
  let locations :=
    locations ++ [location (init_id + len signals) (300 * len signals) 200
                    None (Some tail_name) false] in
  transitions <- for_each (range (List.length signals)) (fun i transitions =>
    _ <- load_method G "UppaalFactory" "transition" ;;
    o <- getitem signals i ;;
    Ok (transitions ++ [transition (init_id + Z.of_nat i) (init_id + Z.of_nat i + 1)
                          (Z.of_nat i * 300 + 100) 200
                          (guard o) (signal o) None])) [] ;;
  st <- (if strict
         then for_each (range (List.length signals))
                (strict_body signals init_id sync_of_trap) (locations, transitions)
         else Ok (locations, transitions)) ;;
  _ <- load_method G "UppaalFactory" "template" ;;
  Ok (template monitor_name (fst st) init_id (snd st) None None).

(** [UFactory.monitor]. *)
Definition monitor (monitor_name : string) (signals : list observation)
    (init_id : Z) (strict : bool) : result Element :=
  linear_chain "pass" signal monitor_name signals init_id strict.

(** [UFactory.strict_monitor]. *)
Definition strict_monitor (monitor_name : string) (signals : list observation)
    (init_id : Z) : result Element :=
  _ <- load_method G "UppaalFactory" "monitor" ;;
  monitor monitor_name signals init_id true.

(** One pass of the inner loop [for value in edge_signal_dict.values()] of
    the trap locations of [monitor_allpatterns], over the state [(j, locations)]. *)
Definition trap_location_body (signals : list observation) (init_id : Z)
    (edge_signal_dict : list (string * string)) (i : nat)
    (value : string) (st : nat * list Element) : result (nat * list Element) :=
  let '(j, locations) := st in
  o <- getitem signals i ;;
  if py_ne (signal o) (str_replace "!" "?" value)
  then
    _ <- load_method G "UppaalFactory" "location" ;;
    Ok (S j,
        locations ++
          [location (init_id + len signals + 1
                     + Z.of_nat i * (len edge_signal_dict - 1) + Z.of_nat j)
             (300 * Z.of_nat i) (500 + 100 * Z.of_nat j) None None false])
  else Ok (j, locations).

(** The same for the trap transitions. *)
Definition trap_transition_body (signals : list observation) (init_id : Z)
    (edge_signal_dict : list (string * string)) (i : nat)
    (value : string) (st : nat * list Element) : result (nat * list Element) :=
  let '(j, transitions) := st in
  o <- getitem signals i ;;
  if py_ne (signal o) (str_replace "!" "?" value)
  then
    _ <- load_method G "UppaalFactory" "transition" ;;
    Ok (S j,
        transitions ++
          [transition (init_id + Z.of_nat i)
             (init_id + len signals + 1
              + Z.of_nat i * (len edge_signal_dict - 1) + Z.of_nat j)
             (Z.of_nat i * 300 + 100) 200
             None (Some (str_replace "!" "?" value)) None])
  else Ok (j, transitions).

(** [UFactory.monitor_allpatterns]. *)
Definition monitor_allpatterns (monitor_name : string)
    (signals : list observation) (init_id : Z)
    (edge_signal_dict : list (string * string)) : result Element :=
  locations <- for_each (range (List.length signals)) (fun i locations =>
    _ <- load_method G "UppaalFactory" "location" ;;
    Ok (locations ++ [location (init_id + Z.of_nat i) (300 * Z.of_nat i) 200
                        None None false])) [] ;;
  _ <- load_method G "UppaalFactory" "location" ;;
  let locations :=
    locations ++ [location (init_id + len signals) (300 * len signals) 200
                    None (Some "pass") false] in
  locations <- for_each (range (List.length signals)) (fun i locations =>
    st <- for_each (values edge_signal_dict)
            (trap_location_body signals init_id edge_signal_dict i)
            (O, locations) ;;
    Ok (snd st)) locations ;;
  transitions <- for_each (range (List.length signals)) (fun i transitions =>
    _ <- load_method G "UppaalFactory" "transition" ;;
    o <- getitem signals i ;;
    Ok (transitions ++ [transition (init_id + Z.of_nat i) (init_id + Z.of_nat i + 1)
                          (Z.of_nat i * 300 + 100) 200
                          None (signal o) None])) [] ;;
  transitions <- for_each (range (List.length signals)) (fun i transitions =>
    st <- for_each (values edge_signal_dict)
            (trap_transition_body signals init_id edge_signal_dict i)
            (O, transitions) ;;
    Ok (snd st)) transitions ;;
  _ <- load_method G "UppaalFactory" "template" ;;
  Ok (template monitor_name locations init_id transitions None None).

(** [UFactory.input]: the second definition in the class body, which
    replaces the first. *)
Definition input (monitor_name : string) (signals : list observation)
    (init_id : Z) (strict : bool) : result Element :=
  linear_chain "Finish" (fun _ => None) monitor_name signals init_id strict.

End Synthesizers.

(** ** Reading a synthesized template back *)

Definition bind_opt {A B : Type} (m : option A) (k : A -> option B) : option B :=
  match m with
  | Some a => k a
  | None => None
  end.

(** The [location] and [transition] children of a template, in document
    order, and the target of its [init] child. *)
Definition locations_of (t : Element) : list Element := findall "location" t.
Definition transitions_of (t : Element) : list Element := findall "transition" t.
Definition init_ref (t : Element) : option string :=
  bind_opt (find_child "init" t) (fun e => get e "ref").

(** Identifier, name and invariant of a location element. *)
Definition location_id_of (l : Element) : option string := get l "id".
Definition name_of (l : Element) : option string :=
  bind_opt (find_child "name" l) text.
Definition invariant_of (l : Element) : option string :=
  bind_opt (find_label "invariant" l) text.

(** Source, target, guard and synchronisation of a transition element. *)
Definition source_ref (tr : Element) : option string :=
  bind_opt (find_child "source" tr) (fun e => get e "ref").
Definition target_ref (tr : Element) : option string :=
  bind_opt (find_child "target" tr) (fun e => get e "ref").
Definition guard_of (tr : Element) : option string :=
  bind_opt (find_label "guard" tr) text.
Definition sync_of (tr : Element) : option string :=
  bind_opt (find_label "synchronisation" tr) text.

(** The transitions leaving the location with identifier [r], and their
    number. *)
Definition has_source (r : string) (tr : Element) : bool :=
  match source_ref tr with
  | Some s => String.eqb s r
  | None => false
  end.
Definition outgoing (t : Element) (r : string) : list Element :=
  filter (has_source r) (transitions_of t).
Definition out_degree (t : Element) (r : string) : nat :=
  List.length (outgoing t r).

(** ** Vocabulary of the properties *)

(** The value read by [signals[i]] in the closed forms below when [i] is a
    valid index; the default is never reached. *)
Definition no_observation : observation := mkObservation None None None.
Definition obs (signals : list observation) (i : nat) : observation :=
  nth i signals no_observation.

(** The inputs on which no [replace] of the strict loop meets [None]:
    every invariant is present, and every guard but the last one. *)
Definition strict_ready (signals : list observation) : Prop :=
  forall i, (i < List.length signals)%nat ->
    inv (obs signals i) <> None /\
    ((i + 1 < List.length signals)%nat -> guard (obs signals i) <> None).

(** The alphabet values that differ from the signal expected at a
    location, after the send marker is turned into the receive marker. *)
Definition mismatches (o : observation) (d : list (string * string)) : list string :=
  filter (fun value => py_ne (signal o) (str_replace "!" "?" value)) (values d).

(** The expected signal is the normalized value of some alphabet entry. *)
Definition occurs (o : observation) (d : list (string * string)) : Prop :=
  exists value, In value (values d) /\ signal o = Some (str_replace "!" "?" value).

(** ... of exactly one alphabet entry. *)
Definition occurs_once (o : observation) (d : list (string * string)) : Prop :=
  List.length
    (filter (fun value => negb (py_ne (signal o) (str_replace "!" "?" value)))
       (values d)) = 1%nat.

(** The identifier the all-patterns synthesizer gives to the trap of
    location [i] and of its [j]-th non-matching alphabet entry. *)
Definition trap_id (base : Z) (n k : nat) (i j : nat) : Z :=
  base + Z.of_nat n + 1 + Z.of_nat i * (Z.of_nat k - 1) + Z.of_nat j.

(** The identifiers of the main chain, and the identifiers of the traps
    of the all-patterns synthesizer: for each location [i] in turn, one per
    non-matching alphabet entry, counted from [0]. *)
Definition main_ids (signals : list observation) (base : Z) : list Z :=
  map (fun i => base + Z.of_nat i) (range (S (List.length signals))).
Definition trap_ids (signals : list observation) (base : Z)
    (d : list (string * string)) : list Z :=
  flat_map (fun i =>
              map (trap_id base (List.length signals) (List.length d) i)
                (seq 0 (List.length (mismatches (obs signals i) d))))
    (range (List.length signals)).

(** The trap locations of the all-patterns template: those after the
    [n + 1] locations of the main chain. *)
Definition trap_locations_of (n : nat) (t : Element) : list Element :=
  skipn (S n) (locations_of t).

(** ** Closed forms of the loops *)

(** Location [i] of the main chain of [monitor] and [input]. *)
Definition chain_location (signals : list observation) (base : Z) (i : nat) : Element :=
  location (base + Z.of_nat i) (300 * Z.of_nat i) 200 (inv (obs signals i)) None false.

(** The tail location. *)
Definition tail_location (tail_name : string) (signals : list observation)
    (base : Z) : Element :=
  location (base + len signals) (300 * len signals) 200 None (Some tail_name) false.

(** Transition [i] of the main chain of [monitor] and [input]. *)
Definition chain_transition (signals : list observation) (base : Z) (i : nat) : Element :=
  transition (base + Z.of_nat i) (base + Z.of_nat i + 1) (Z.of_nat i * 300 + 100) 200
    (guard (obs signals i)) (signal (obs signals i)) None.

(** Trap location [i] of the strict loop. *)
Definition fail_location (signals : list observation) (base : Z) (i : nat) : Element :=
  location (base + len signals + Z.of_nat i + 1) (300 * Z.of_nat i) (-200)
    (option_map (str_replace "<=" "<") (inv (obs signals i)))
    (Some ("fail" ++ py_str (Z.of_nat i))%string) false.

(** Trap transition [i] of the strict loop. *)
Definition fail_transition (sync_of_trap : observation -> option string)
    (signals : list observation) (base : Z) (i : nat) : Element :=
  transition (base + Z.of_nat i) (base + len signals + Z.of_nat i + 1)
    (Z.of_nat i * 300 + 100) (-100)
    (match i with
     | O => None
     | S i' => option_map (str_replace ">=" ">") (guard (obs signals i'))
     end)
    (sync_of_trap (obs signals i)) None.

(** Location [i] and transition [i] of the main chain of
    [monitor_allpatterns]. *)
Definition bare_location (base : Z) (i : nat) : Element :=
  location (base + Z.of_nat i) (300 * Z.of_nat i) 200 None None false.
Definition bare_transition (signals : list observation) (base : Z) (i : nat) : Element :=
  transition (base + Z.of_nat i) (base + Z.of_nat i + 1) (Z.of_nat i * 300 + 100) 200
    None (signal (obs signals i)) None.

(** The trap of location [i] and of its [j]-th non-matching entry, and the
    transition into it. *)
Definition pattern_location (base : Z) (n k i j : nat) : Element :=
  location (trap_id base n k i j) (300 * Z.of_nat i) (500 + 100 * Z.of_nat j)
    None None false.
Definition pattern_transition (base : Z) (n k i : nat) (jv : nat * string) : Element :=
  transition (base + Z.of_nat i) (trap_id base n k i (fst jv))
    (Z.of_nat i * 300 + 100) 200 None (Some (str_replace "!" "?" (snd jv))) None.

(** The traps of location [i], in the order of the alphabet. *)
Definition pattern_locations (signals : list observation) (base : Z)
    (d : list (string * string)) (i : nat) : list Element :=
  map (pattern_location base (List.length signals) (List.length d) i)
    (seq 0 (List.length (mismatches (obs signals i) d))).
Definition pattern_transitions (signals : list observation) (base : Z)
    (d : list (string * string)) (i : nat) : list Element :=
  let ms := mismatches (obs signals i) d in
  map (pattern_transition base (List.length signals) (List.length d) i)
    (combine (seq 0 (List.length ms)) ms).

(** Lists made of [location] elements, and of [transition] elements. *)
Definition all_locations (es : list Element) : Prop :=
  Forall (fun e => tag e = "location") es.
Definition all_transitions (es : list Element) : Prop :=
  Forall (fun e => tag e = "transition") es.

(** ** Concrete inputs *)

(** Two timed observations, as in the docstrings ([gclk>=10], [gclk<=5]). *)
Definition two_signals : list observation :=
  [mkObservation (Some "sigA?") (Some "gclk>=5") (Some "gclk<=10");
   mkObservation (Some "sigB?") (Some "gclk>=2") (Some "gclk<=8")].

(** One timed observation. *)
Definition one_signal : list observation :=
  [mkObservation (Some "sigA?") (Some "gclk>=5") (Some "gclk<=10")].

(** An observation list whose second invariant is [None]. *)
Definition untimed_second : list observation :=
  [mkObservation (Some "sigA?") (Some "gclk>=5") (Some "gclk<=10");
   mkObservation (Some "sigB?") (Some "gclk>=2") None].

(** An alphabet with one entry per chain signal of [two_signals]. *)
Definition exact_alphabet : list (string * string) :=
  [("edgeA", "sigA!"); ("edgeB", "sigB!")].

(** An alphabet in which two entries carry the signal of [one_signal]. *)
Definition repeated_alphabet : list (string * string) :=
  [("edgeA", "sigA!"); ("edgeB", "sigA!")].

(** An alphabet that contains no signal of [two_signals]. *)
Definition foreign_alphabet : list (string * string) :=
  [("edgeX", "sigX!"); ("edgeY", "sigY!")].

(** ** Further readers *)

(** The [committed] marker of a location element. *)
Definition committed_of (l : Element) : bool :=
  existsb (fun c => String.eqb (tag c) "committed") (children l).

(** The assignment label of a transition element. *)
Definition assignment_of (tr : Element) : option string :=
  bind_opt (find_label "assignment" tr) text.

(** The [x] and [y] attributes of an element. *)
Definition pos_of (e : Element) : option (string * string) :=
  match get e "x", get e "y" with
  | Some x, Some y => Some (x, y)
  | _, _ => None
  end.

(** The kinds of the [label] children of an element, in document order. *)
Definition label_kinds (e : Element) : list (option string) :=
  map (fun c => get c "kind") (findall "label" e).

(** The formulas of a [queries] element, in document order. *)
Definition formulas_of (e : Element) : list (option string) :=
  map (fun q => bind_opt (find_child "formula" q) text) (findall "query" e).

(** Source, target, guard and synchronisation of a transition at once. *)
Definition edge_of (tr : Element) :
    option string * option string * option string * option string :=
  (source_ref tr, target_ref tr, guard_of tr, sync_of tr).

(** [old in s]. *)
Fixpoint str_contains (old s : string) : bool :=
  match s with
  | EmptyString => prefix old EmptyString
  | String _ s' => (prefix old s || str_contains old s')%bool
  end.

(** The observation list with every guard and invariant erased. *)
Definition untimed (signals : list observation) : list observation :=
  map (fun o => mkObservation (signal o) None None) signals.


(** * Properties *)

(** ** Decimal printing *)

Lemma to_int_printable (z : Z) :
  Z.to_int z <> Decimal.Pos Decimal.Nil /\ Z.to_int z <> Decimal.Neg Decimal.Nil.
Proof.
  destruct z as [|p|p]; simpl; split; try discriminate;
    intros [= H]; exact (Unsigned.to_uint_nonnil p H).
Qed.

Lemma py_str_inj (a b : Z) : py_str a = py_str b -> a = b.
Proof.
  unfold py_str; intros H.
  apply DecimalZ.to_int_inj.
  destruct (to_int_printable a) as [Ha1 Ha2].
  destruct (to_int_printable b) as [Hb1 Hb2].
  pose proof (NilZero.isi _ Ha1 Ha2) as Pa.
  pose proof (NilZero.isi _ Hb1 Hb2) as Pb.
  rewrite H in Pa. rewrite Pa in Pb. now injection Pb.
Qed.

Lemma id_ref_inj (a b : Z) : id_ref a = id_ref b -> a = b.
Proof.
  unfold id_ref; simpl; intros [= H]. now apply py_str_inj.
Qed.

Lemma some_id_ref_inj (a b : Z) : Some (id_ref a) = Some (id_ref b) -> a = b.
Proof.
  intros H. apply id_ref_inj. congruence.
Qed.

Lemma id_ref_eqb (a b : Z) : String.eqb (id_ref a) (id_ref b) = Z.eqb a b.
Proof.
  destruct (Z.eqb_spec a b) as [->|Hne].
  - apply String.eqb_refl.
  - apply String.eqb_neq. intros H. apply Hne. now apply id_ref_inj.
Qed.

(** ** Loops *)

Lemma for_each_app {A S : Type} (xs ys : list A) (body : A -> S -> result S) (s : S) :
  for_each (xs ++ ys) body s = s' <- for_each xs body s ;; for_each ys body s'.
Proof.
  revert s; induction xs as [|x xs IH]; intros s; simpl; [reflexivity|].
  destruct (body x s); simpl; auto.
Qed.

(** A loop whose every pass appends one element. *)
Lemma for_each_collect {A E : Type} (xs : list A)
    (body : A -> list E -> result (list E)) (f : A -> E) :
  (forall x acc, In x xs -> body x acc = Ok (acc ++ [f x])) ->
  forall acc, for_each xs body acc = Ok (acc ++ map f xs).
Proof.
  induction xs as [|x xs IH]; intros Hbody acc; simpl.
  - now rewrite app_nil_r.
  - rewrite (Hbody x acc (or_introl eq_refl)); simpl.
    rewrite IH by (intros; apply Hbody; now right).
    now rewrite <- app_assoc.
Qed.

(** A loop over two lists, each of which grows by one element per pass. *)
Lemma for_each_collect2 {A E F : Type} (xs : list A)
    (body : A -> list E * list F -> result (list E * list F))
    (f : A -> E) (g : A -> F) :
  (forall x l t, In x xs -> body x (l, t) = Ok (l ++ [f x], t ++ [g x])) ->
  forall l t, for_each xs body (l, t) = Ok (l ++ map f xs, t ++ map g xs).
Proof.
  induction xs as [|x xs IH]; intros Hbody l t; simpl.
  - now rewrite !app_nil_r.
  - rewrite (Hbody x l t (or_introl eq_refl)); simpl.
    rewrite IH by (intros; apply Hbody; now right).
    now rewrite <- !app_assoc.
Qed.

(** A loop whose every pass appends a block of elements. *)
Lemma for_each_collect_many {A E : Type} (xs : list A)
    (body : A -> list E -> result (list E)) (f : A -> list E) :
  (forall x acc, In x xs -> body x acc = Ok (acc ++ f x)) ->
  forall acc, for_each xs body acc = Ok (acc ++ flat_map f xs).
Proof.
  induction xs as [|x xs IH]; intros Hbody acc; simpl.
  - now rewrite app_nil_r.
  - rewrite (Hbody x acc (or_introl eq_refl)); simpl.
    rewrite IH by (intros; apply Hbody; now right).
    now rewrite <- app_assoc.
Qed.

(** A loop that can only raise [e] raises nothing else. *)
Lemma for_each_raises {A S : Type} (xs : list A) (body : A -> S -> result S)
    (e : exn) :
  (forall x s e', In x xs -> body x s = Raise e' -> e' = e) ->
  forall s e', for_each xs body s = Raise e' -> e' = e.
Proof.
  induction xs as [|x xs IH]; intros Hbody s e'; simpl; [discriminate|].
  destruct (body x s) as [s'|e0] eqn:Hx; simpl.
  - apply IH. intros; eapply Hbody; eauto; now right.
  - intros [= <-]. eapply Hbody; eauto; now left.
Qed.

(** A loop one of whose passes raises from every state does not return. *)
Lemma for_each_stuck {A S : Type} (xs : list A) (body : A -> S -> result S)
    (x : A) :
  In x xs -> (forall s, exists e, body x s = Raise e) ->
  forall s, exists e, for_each xs body s = Raise e.
Proof.
  induction xs as [|y xs IH]; intros Hin Hx s; simpl; [contradiction|].
  destruct Hin as [->|Hin].
  - destruct (Hx s) as [e ->]. now exists e.
  - destruct (body y s) as [s'|e]; simpl; [now apply IH | now exists e].
Qed.

Lemma firstn_exact {A : Type} (xs ys : list A) (m : nat) :
  List.length xs = m -> firstn m (xs ++ ys) = xs.
Proof.
  intros <-. rewrite firstn_app, Nat.sub_diag, firstn_all. cbn. apply app_nil_r.
Qed.

Lemma skipn_exact {A : Type} (xs ys : list A) (m : nat) :
  List.length xs = m -> skipn m (xs ++ ys) = ys.
Proof.
  intros <-. rewrite skipn_app, Nat.sub_diag, skipn_all. reflexivity.
Qed.

Lemma map_flat_map {A B C : Type} (g : B -> C) (f : A -> list B) (xs : list A) :
  map g (flat_map f xs) = flat_map (fun x => map g (f x)) xs.
Proof.
  induction xs as [|x xs IH]; cbn; [reflexivity|].
  now rewrite map_app, IH.
Qed.

Lemma list_sum_const (g : nat -> nat) (c : nat) (xs : list nat) :
  (forall x, In x xs -> g x = c) ->
  list_sum (map g xs) = (List.length xs * c)%nat.
Proof.
  induction xs as [|x xs IH]; intros H; [reflexivity|].
  change (list_sum (map g (x :: xs))) with (g x + list_sum (map g xs))%nat.
  rewrite (H x) by now left. rewrite IH by (intros; apply H; now right).
  cbn [List.length]. lia.
Qed.

Lemma list_sum_bound (g : nat -> nat) (c : nat) (xs : list nat) :
  (forall x, In x xs -> (g x <= c)%nat) ->
  (list_sum (map g xs) <= List.length xs * c)%nat.
Proof.
  induction xs as [|x xs IH]; intros H; [cbn; lia|].
  change (list_sum (map g (x :: xs))) with (g x + list_sum (map g xs))%nat.
  pose proof (H x (or_introl eq_refl)).
  assert (list_sum (map g xs) <= List.length xs * c)%nat
    by (apply IH; intros; apply H; now right).
  cbn [List.length]. lia.
Qed.

Lemma filter_drops {A : Type} (f : A -> bool) (x : A) (xs : list A) :
  In x xs -> f x = false -> (List.length (filter f xs) < List.length xs)%nat.
Proof.
  induction xs as [|y xs IH]; intros Hin Hx; [contradiction|].
  cbn. destruct Hin as [->|Hin].
  - rewrite Hx. pose proof (filter_length_le f xs). lia.
  - specialize (IH Hin Hx). destruct (f y); cbn; lia.
Qed.

(** Blocks of integers that lie in consecutive intervals do not overlap. *)
Lemma lower_bounds_mono (lo : nat -> Z) (i j : nat) :
  (forall i, lo i <= lo (S i)) -> (i <= j)%nat -> lo i <= lo j.
Proof.
  intros Hmono. induction 1 as [|j _ IH]; [lia|].
  specialize (Hmono j). lia.
Qed.

Lemma NoDup_blocks (f : nat -> list Z) (lo : nat -> Z) (s m : nat) :
  (forall i, lo i <= lo (S i)) ->
  (forall i, (s <= i < s + m)%nat -> NoDup (f i)) ->
  (forall i z, (s <= i < s + m)%nat -> In z (f i) -> lo i <= z < lo (S i)) ->
  NoDup (flat_map f (seq s m)).
Proof.
  intros Hmono. revert s. induction m as [|m IH]; intros s Hnd Hin; cbn.
  - constructor.
  - apply NoDup_app.
    + apply Hnd. lia.
    + apply IH; intros; [apply Hnd | apply Hin]; auto; lia.
    + intros z Hz Hrest. apply in_flat_map in Hrest as (i & Hi & Hzi).
      apply in_seq in Hi.
      assert (lo s <= z < lo (S s)) by (apply Hin; auto; lia).
      assert (lo i <= z < lo (S i)) by (apply Hin; auto; lia).
      assert (lo (S s) <= lo i) by (apply lower_bounds_mono; auto; lia).
      lia.
Qed.

Lemma getitem_obs (signals : list observation) (i : nat) :
  (i < List.length signals)%nat -> getitem signals i = Ok (obs signals i).
Proof.
  intros Hi. unfold getitem, obs.
  now rewrite (nth_error_nth' signals no_observation Hi).
Qed.

Lemma in_range (i n : nat) : In i (range n) <-> (i < n)%nat.
Proof.
  unfold range. rewrite in_seq. lia.
Qed.

(** ** Reading templates *)

Lemma filter_tag_all (t : string) (es : list Element) :
  Forall (fun e => tag e = t) es ->
  filter (fun c => String.eqb (tag c) t) es = es.
Proof.
  induction 1 as [|e es He _ IH]; simpl; [reflexivity|].
  rewrite He, String.eqb_refl. now f_equal.
Qed.

Lemma filter_tag_none (t u : string) (es : list Element) :
  t <> u -> Forall (fun e => tag e = u) es ->
  filter (fun c => String.eqb (tag c) t) es = [].
Proof.
  intros Htu. induction 1 as [|e es He _ IH]; simpl; [reflexivity|].
  rewrite He. destruct (String.eqb_spec u t) as [->|_]; [contradiction|assumption].
Qed.

Lemma locations_of_template nm locs i trs p d :
  all_locations locs -> all_transitions trs ->
  locations_of (template nm locs i trs p d) = locs.
Proof.
  intros Hl Ht. unfold locations_of, findall, template; cbn [children].
  rewrite !filter_app.
  rewrite (filter_tag_all _ _ Hl).
  rewrite (filter_tag_none "location" "transition" trs) by (discriminate || assumption).
  destruct p, d; simpl; now rewrite app_nil_r.
Qed.

Lemma transitions_of_template nm locs i trs p d :
  all_locations locs -> all_transitions trs ->
  transitions_of (template nm locs i trs p d) = trs.
Proof.
  intros Hl Ht. unfold transitions_of, findall, template; cbn [children].
  rewrite !filter_app.
  rewrite (filter_tag_all _ _ Ht).
  rewrite (filter_tag_none "transition" "location" locs) by (discriminate || assumption).
  destruct p, d; reflexivity.
Qed.

Lemma init_ref_template nm locs i trs p d :
  all_locations locs ->
  init_ref (template nm locs i trs p d) = Some (id_ref i).
Proof.
  intros Hl. unfold init_ref, find_child, findall, template.
  cbn [children]. rewrite !filter_app.
  rewrite (filter_tag_none "init" "location" locs) by (discriminate || assumption).
  destruct p, d; reflexivity.
Qed.

Lemma all_locations_map {A : Type} (f : A -> Element) (xs : list A) :
  (forall x, tag (f x) = "location") -> all_locations (map f xs).
Proof.
  intros H. apply Forall_forall. intros e He.
  apply in_map_iff in He as (x & <- & _). apply H.
Qed.

Lemma all_transitions_map {A : Type} (f : A -> Element) (xs : list A) :
  (forall x, tag (f x) = "transition") -> all_transitions (map f xs).
Proof.
  intros H. apply Forall_forall. intros e He.
  apply in_map_iff in He as (x & <- & _). apply H.
Qed.

(** What the readers return on the elements of the builders. *)

Lemma location_id_of_location i x y iv nm c :
  location_id_of (location i x y iv nm c) = Some (id_ref i).
Proof. reflexivity. Qed.

Lemma name_of_location i x y iv nm c :
  name_of (location i x y iv nm c) = nm.
Proof. destruct nm, iv, c; reflexivity. Qed.

Lemma invariant_of_location i x y iv nm c :
  invariant_of (location i x y iv nm c) = iv.
Proof. destruct nm, iv, c; reflexivity. Qed.

Lemma source_ref_transition s t x y g sy r :
  source_ref (transition s t x y g sy r) = Some (id_ref s).
Proof. reflexivity. Qed.

Lemma target_ref_transition s t x y g sy r :
  target_ref (transition s t x y g sy r) = Some (id_ref t).
Proof. reflexivity. Qed.

Lemma guard_of_transition s t x y g sy r :
  guard_of (transition s t x y g sy r) = g.
Proof. destruct g, sy, r; reflexivity. Qed.

Lemma sync_of_transition s t x y g sy r :
  sync_of (transition s t x y g sy r) = sy.
Proof. destruct g, sy, r; reflexivity. Qed.

(** ** The synthesizers where [UppaalFactory] names the class *)

(** The bodies of the synthesizers reach the builders through the global
    name [UppaalFactory].  What they synthesize is therefore stated for a
    namespace [G] in which that name denotes the class, such as
    [aliased_globals]; the namespace of the module as it is written,
    [module_globals], is treated at the end. *)

Section Bound.

Variable G : globals.
Hypothesis G_bound : G "UppaalFactory" = Some Class_UFactory.

Lemma load_bound (attr : string) :
  existsb (String.eqb attr) class_attributes = true ->
  load_method G "UppaalFactory" attr = Ok tt.
Proof.
  intros H. unfold load_method. now rewrite G_bound, H.
Qed.

Lemma load_location : load_method G "UppaalFactory" "location" = Ok tt.
Proof. now apply load_bound. Qed.

Lemma load_transition : load_method G "UppaalFactory" "transition" = Ok tt.
Proof. now apply load_bound. Qed.

Lemma load_template : load_method G "UppaalFactory" "template" = Ok tt.
Proof. now apply load_bound. Qed.

Lemma load_monitor : load_method G "UppaalFactory" "monitor" = Ok tt.
Proof. now apply load_bound. Qed.

Lemma load_query : load_method G "UppaalFactory" "_UFactory__query" = Ok tt.
Proof. now apply load_bound. Qed.

Ltac resolve :=
  rewrite ?load_location, ?load_transition, ?load_template, ?load_monitor;
  cbn [bind].

(** The strict loop on the inputs that reach no [None]. *)
Lemma strict_body_ok signals base sy i l t :
  strict_ready signals -> (i < List.length signals)%nat ->
  strict_body G signals base sy i (l, t) =
  Ok (l ++ [fail_location signals base i], t ++ [fail_transition sy signals base i]).
Proof.
  intros Hready Hi. destruct (Hready i Hi) as [Hinv _].
  unfold strict_body, fail_location, fail_transition. resolve.
  rewrite (getitem_obs _ _ Hi); cbn [bind].
  destruct (inv (obs signals i)) as [iv|]; [|contradiction]. cbn [opt_replace bind option_map].
  destruct i as [|i']; cbn [Nat.eqb]; resolve.
  - reflexivity.
  - assert (Hi' : (i' < List.length signals)%nat) by lia.
    destruct (Hready i' Hi') as [_ Hg]. specialize (Hg ltac:(lia)).
    replace (S i' - 1)%nat with i' by lia.
    rewrite (getitem_obs _ _ Hi'); cbn [bind].
    destruct (guard (obs signals i')) as [g|]; [|contradiction].
    reflexivity.
Qed.

(** The strict loop raises nothing but [AttributeError]. *)
Lemma strict_body_raises signals base sy i st e :
  (i < List.length signals)%nat ->
  strict_body G signals base sy i st = Raise e -> e = AttributeError.
Proof.
  intros Hi. destruct st as [l t]. unfold strict_body. resolve.
  rewrite (getitem_obs _ _ Hi); cbn [bind].
  destruct (inv (obs signals i)) as [iv|]; cbn [opt_replace bind];
    [|now intros [= <-]].
  destruct i as [|i']; cbn [Nat.eqb]; resolve.
  - discriminate.
  - replace (S i' - 1)%nat with i' by lia.
    rewrite (getitem_obs signals i') by lia; cbn [bind].
    destruct (guard (obs signals i')) as [g|]; cbn [opt_replace bind];
      [|now intros [= <-]].
    discriminate.
Qed.

(** A missing invariant stops the strict loop at its own pass, a missing
    guard at the next one. *)
Lemma strict_body_stuck_inv signals base sy i st :
  (i < List.length signals)%nat -> inv (obs signals i) = None ->
  exists e, strict_body G signals base sy i st = Raise e.
Proof.
  intros Hi Hnone. destruct st as [l t]. unfold strict_body. resolve.
  rewrite (getitem_obs _ _ Hi); cbn [bind]. rewrite Hnone.
  now exists AttributeError.
Qed.

Lemma strict_body_stuck_guard signals base sy i st :
  (i + 1 < List.length signals)%nat -> guard (obs signals i) = None ->
  exists e, strict_body G signals base sy (i + 1) st = Raise e.
Proof.
  intros Hi Hnone. destruct st as [l t]. unfold strict_body. resolve.
  rewrite (getitem_obs _ _ Hi); cbn [bind].
  destruct (inv (obs signals (i + 1))) as [iv|]; cbn [opt_replace bind];
    [|now exists AttributeError].
  replace (Nat.eqb (i + 1) 0) with false by (symmetry; apply Nat.eqb_neq; lia).
  resolve. replace (i + 1 - 1)%nat with i by lia.
  rewrite (getitem_obs signals i) by lia; cbn [bind]. rewrite Hnone.
  now exists AttributeError.
Qed.

(** The two loops of the main chain. *)
Lemma chain_locations_loop signals base acc :
  for_each (range (List.length signals)) (fun i locations =>
    _ <- load_method G "UppaalFactory" "location" ;;
    o <- getitem signals i ;;
    Ok (locations ++ [location (base + Z.of_nat i) (300 * Z.of_nat i) 200
                        (inv o) None false])) acc
  = Ok (acc ++ map (chain_location signals base) (range (List.length signals))).
Proof.
  apply for_each_collect. intros i l Hi. apply in_range in Hi.
  resolve. now rewrite (getitem_obs _ _ Hi).
Qed.

Lemma chain_transitions_loop signals base acc :
  for_each (range (List.length signals)) (fun i transitions =>
    _ <- load_method G "UppaalFactory" "transition" ;;
    o <- getitem signals i ;;
    Ok (transitions ++ [transition (base + Z.of_nat i) (base + Z.of_nat i + 1)
                          (Z.of_nat i * 300 + 100) 200
                          (guard o) (signal o) None])) acc
  = Ok (acc ++ map (chain_transition signals base) (range (List.length signals))).
Proof.
  apply for_each_collect. intros i l Hi. apply in_range in Hi.
  resolve. now rewrite (getitem_obs _ _ Hi).
Qed.

(** The plain chain as a whole. *)
Lemma linear_chain_plain tail_name sy name signals base :
  linear_chain G tail_name sy name signals base false =
  Ok (template name
        (map (chain_location signals base) (range (List.length signals))
         ++ [tail_location tail_name signals base])
        base
        (map (chain_transition signals base) (range (List.length signals)))
        None None).
Proof.
  unfold linear_chain.
  rewrite chain_locations_loop, chain_transitions_loop. resolve.
  reflexivity.
Qed.

(** The strict chain as a whole, on the inputs that reach no [None]. *)
Lemma linear_chain_strict tail_name sy name signals base :
  strict_ready signals ->
  linear_chain G tail_name sy name signals base true =
  Ok (template name
        ((map (chain_location signals base) (range (List.length signals))
          ++ [tail_location tail_name signals base])
         ++ map (fail_location signals base) (range (List.length signals)))
        base
        (map (chain_transition signals base) (range (List.length signals))
         ++ map (fail_transition sy signals base) (range (List.length signals)))
        None None).
Proof.
  intros Hready. unfold linear_chain.
  rewrite chain_locations_loop, chain_transitions_loop. resolve.
  rewrite (for_each_collect2 _ _ (fail_location signals base)
             (fail_transition sy signals base)).
  - cbn [bind fst snd]. resolve. reflexivity.
  - intros i l t Hi. apply in_range in Hi. now apply strict_body_ok.
Qed.

(** Identifiers, sources and targets along the main chain. *)
Lemma chain_ids tail_name signals base :
  map location_id_of
    (map (chain_location signals base) (range (List.length signals))
     ++ [tail_location tail_name signals base])
  = map (fun i => Some (id_ref (base + Z.of_nat i))) (range (S (List.length signals))).
Proof.
  unfold range. rewrite seq_S, !map_app, map_map. reflexivity.
Qed.

Lemma chain_sources signals base :
  map source_ref (map (chain_transition signals base) (range (List.length signals)))
  = map (fun i => Some (id_ref (base + Z.of_nat i))) (range (List.length signals)).
Proof. now rewrite map_map. Qed.

Lemma chain_targets signals base :
  map target_ref (map (chain_transition signals base) (range (List.length signals)))
  = map (fun i => Some (id_ref (base + Z.of_nat i + 1))) (range (List.length signals)).
Proof. now rewrite map_map. Qed.

Lemma chain_all_locations tail_name signals base :
  all_locations (map (chain_location signals base) (range (List.length signals))
                 ++ [tail_location tail_name signals base]).
Proof.
  apply Forall_app; split; [now apply all_locations_map|].
  now constructor.
Qed.

Lemma chain_all_transitions signals base :
  all_transitions (map (chain_transition signals base) (range (List.length signals))).
Proof. now apply all_transitions_map. Qed.

Lemma id_range_NoDup (base : Z) (m : nat) :
  NoDup (map (fun i => Some (id_ref (base + Z.of_nat i))) (range m)).
Proof.
  apply Injective_map_NoDup; [|apply seq_NoDup].
  intros i j H. apply some_id_ref_inj in H. lia.
Qed.

(** The plain chain where the name is bound: for every signal list of
    length [n], every base id and every name, the plain chain ([monitor] with [strict=False]) returns a template with
    exactly [n + 1] locations and [n] transitions; the location ids are the
    contiguous range from [base] to [base + n], in this order; the init
    reference is [base], which is the smallest id of the template; the tail
    location, of id [base + n], has no invariant and is named "pass". *)
Theorem monitor_plain_shape (name : string) (signals : list observation) (base : Z) :
  exists t, monitor G name signals base false = Ok t /\
    List.length (locations_of t) = S (List.length signals) /\
    List.length (transitions_of t) = List.length signals /\
    map location_id_of (locations_of t)
      = map (fun i => Some (id_ref (base + Z.of_nat i)))
          (range (S (List.length signals))) /\
    init_ref t = Some (id_ref base) /\
    (forall z, In (Some (id_ref z)) (map location_id_of (locations_of t)) ->
       base <= z <= base + len signals) /\
    exists tail,
      nth_error (locations_of t) (List.length signals) = Some tail /\
      location_id_of tail = Some (id_ref (base + len signals)) /\
      invariant_of tail = None /\
      name_of tail = Some "pass".
Proof.
  unfold monitor. rewrite linear_chain_plain. eexists; split; [reflexivity|].
  pose proof (chain_all_locations "pass" signals base) as Hl.
  pose proof (chain_all_transitions signals base) as Ht.
  rewrite (locations_of_template _ _ _ _ _ _ Hl Ht),
          (transitions_of_template _ _ _ _ _ _ Hl Ht),
          (init_ref_template _ _ _ _ _ _ Hl), chain_ids.
  repeat split.
  - rewrite length_app, length_map. unfold range. rewrite length_seq. simpl. lia.
  - rewrite length_map. unfold range. now rewrite length_seq.
  - apply in_map_iff in H as (i & Hi & Hin). apply some_id_ref_inj in Hi.
    apply in_range in Hin. lia.
  - apply in_map_iff in H as (i & Hi & Hin). apply some_id_ref_inj in Hi.
    apply in_range in Hin. unfold len. lia.
  - exists (tail_location "pass" signals base). repeat split.
    rewrite nth_error_app2; rewrite length_map; unfold range; rewrite length_seq;
      [now rewrite Nat.sub_diag | lia].
Qed.

(** Where the name is bound: in the plain chain, transition [i] goes from [base + i] to
    [base + i + 1] with the guard and the signal of [signals[i]]; the
    transitions are chained, start at [base], end at [base + n], and the
    start followed by the targets lists every location once. *)
Theorem monitor_plain_path (name : string) (signals : list observation) (base : Z) :
  exists t, monitor G name signals base false = Ok t /\
    List.length (transitions_of t) = List.length signals /\
    (forall i o, nth_error signals i = Some o ->
       exists tr, nth_error (transitions_of t) i = Some tr /\
         source_ref tr = Some (id_ref (base + Z.of_nat i)) /\
         target_ref tr = Some (id_ref (base + Z.of_nat i + 1)) /\
         guard_of tr = guard o /\
         sync_of tr = signal o) /\
    map source_ref (transitions_of t)
      = removelast (Some (id_ref base) :: map target_ref (transitions_of t)) /\
    last (Some (id_ref base) :: map target_ref (transitions_of t)) None
      = Some (id_ref (base + len signals)) /\
    Some (id_ref base) :: map target_ref (transitions_of t)
      = map location_id_of (locations_of t) /\
    NoDup (map location_id_of (locations_of t)).
Proof.
  unfold monitor. rewrite linear_chain_plain. eexists; split; [reflexivity|].
  pose proof (chain_all_locations "pass" signals base) as Hl.
  pose proof (chain_all_transitions signals base) as Ht.
  rewrite (locations_of_template _ _ _ _ _ _ Hl Ht),
          (transitions_of_template _ _ _ _ _ _ Hl Ht),
          chain_ids, chain_sources, chain_targets.
  assert (Hshift :
    Some (id_ref base)
      :: map (fun i => Some (id_ref (base + Z.of_nat i + 1))) (range (List.length signals))
    = map (fun i => Some (id_ref (base + Z.of_nat i))) (range (S (List.length signals)))).
  { unfold range. cbn [seq map]. rewrite Z.add_0_r. f_equal.
    rewrite <- seq_shift, map_map. apply map_ext. intros i.
    do 2 f_equal. lia. }
  rewrite Hshift.
  split; [|split; [|split; [|split; [|split]]]].
  - rewrite length_map. unfold range. now rewrite length_seq.
  - intros i o Hi.
    assert (Hlt : (i < List.length signals)%nat)
      by (apply nth_error_Some; congruence).
    assert (Ho : obs signals i = o)
      by (unfold obs; now apply nth_error_nth).
    exists (chain_transition signals base i). split.
    + unfold range. rewrite nth_error_map, nth_error_seq.
      apply Nat.ltb_lt in Hlt. now rewrite Hlt.
    + unfold chain_transition.
      rewrite source_ref_transition, target_ref_transition,
              guard_of_transition, sync_of_transition, Ho. auto.
  - unfold range. rewrite seq_S, map_app. cbn [map]. now rewrite removelast_last.
  - unfold range. rewrite seq_S, map_app. cbn [map]. rewrite last_last.
    unfold len. now rewrite Z.add_0_l || reflexivity.
  - reflexivity.
  - apply id_range_NoDup.
Qed.

(** The transitions of an indexed family that leave a given location. *)
Lemma outgoing_none (g : nat -> Element) (base z : Z) (s m : nat) :
  (forall j, source_ref (g j) = Some (id_ref (base + Z.of_nat j))) ->
  (forall j, (s <= j < s + m)%nat -> z <> base + Z.of_nat j) ->
  filter (has_source (id_ref z)) (map g (seq s m)) = [].
Proof.
  intros Hg. revert s. induction m as [|m IH]; intros s Hz; [reflexivity|].
  cbn [seq map filter]. unfold has_source at 1. rewrite Hg, id_ref_eqb.
  destruct (Z.eqb_spec (base + Z.of_nat s) z) as [He|_].
  - exfalso. apply (Hz s); [lia | now symmetry].
  - apply IH. intros j Hj. apply Hz. lia.
Qed.

Lemma outgoing_one (g : nat -> Element) (base : Z) (s m i : nat) :
  (forall j, source_ref (g j) = Some (id_ref (base + Z.of_nat j))) ->
  (s <= i < s + m)%nat ->
  filter (has_source (id_ref (base + Z.of_nat i))) (map g (seq s m)) = [g i].
Proof.
  intros Hg. revert s. induction m as [|m IH]; intros s Hi; [lia|].
  cbn [seq map filter]. unfold has_source at 1. rewrite Hg, id_ref_eqb.
  destruct (Z.eqb_spec (base + Z.of_nat s) (base + Z.of_nat i)) as [He|Hne].
  - assert (s = i) by lia. subst s. f_equal.
    apply outgoing_none with (base := base); [assumption|]. intros j Hj. lia.
  - apply IH. assert (s <> i) by (intros ->; now apply Hne). lia.
Qed.

Lemma strict_all_locations tail_name signals base :
  all_locations
    ((map (chain_location signals base) (range (List.length signals))
      ++ [tail_location tail_name signals base])
     ++ map (fail_location signals base) (range (List.length signals))).
Proof.
  apply Forall_app; split; [apply chain_all_locations|].
  now apply all_locations_map.
Qed.

Lemma strict_all_transitions sy signals base :
  all_transitions
    (map (chain_transition signals base) (range (List.length signals))
     ++ map (fail_transition sy signals base) (range (List.length signals))).
Proof.
  apply Forall_app; split; [apply chain_all_transitions|].
  now apply all_transitions_map.
Qed.

Lemma all_present_ready signals :
  (forall o, In o signals -> inv o <> None /\ guard o <> None) ->
  strict_ready signals.
Proof.
  intros H i Hi. destruct (H (obs signals i)) as [Hinv Hg].
  - unfold obs. now apply nth_In.
  - auto.
Qed.

Lemma strict_monitor_monitor name signals base :
  strict_monitor G name signals base = monitor G name signals base true.
Proof.
  unfold strict_monitor. now rewrite load_monitor.
Qed.

(** Where the name is bound: on a signal list of length [n >= 1] whose invariants and guards are
    all present, the strict chain has, after the [n + 1] locations and [n]
    transitions of the plain chain and for every [i < n], the trap location
    of id [base + n + 1 + i] at [(300 * i, -200)], named "fail" followed by
    [i], whose invariant is the invariant of [signals[i]] with "<="
    replaced by "<"; and the trap transition from [base + i] to that trap,
    synchronised on the signal of [signals[i]], without guard for [i = 0]
    and guarded by the guard of [signals[i - 1]] with ">=" replaced by ">"
    otherwise. *)
Theorem strict_monitor_traps (name : string) (signals : list observation) (base : Z) :
  (1 <= List.length signals)%nat ->
  (forall o, In o signals -> inv o <> None /\ guard o <> None) ->
  exists t, strict_monitor G name signals base = Ok t /\
    monitor G name signals base true = Ok t /\
    (exists t0, monitor G name signals base false = Ok t0 /\
       firstn (S (List.length signals)) (locations_of t) = locations_of t0 /\
       firstn (List.length signals) (transitions_of t) = transitions_of t0) /\
    List.length (locations_of t) = (2 * List.length signals + 1)%nat /\
    List.length (transitions_of t) = (2 * List.length signals)%nat /\
    forall i o, nth_error signals i = Some o ->
      exists iv trap_tr,
        inv o = Some iv /\
        nth_error (locations_of t) (List.length signals + 1 + i)
          = Some (location (base + len signals + 1 + Z.of_nat i)
                    (300 * Z.of_nat i) (-200)
                    (Some (str_replace "<=" "<" iv))
                    (Some ("fail" ++ py_str (Z.of_nat i))%string) false) /\
        nth_error (transitions_of t) (List.length signals + i) = Some trap_tr /\
        source_ref trap_tr = Some (id_ref (base + Z.of_nat i)) /\
        target_ref trap_tr = Some (id_ref (base + len signals + 1 + Z.of_nat i)) /\
        sync_of trap_tr = signal o /\
        (i = O -> guard_of trap_tr = None) /\
        (forall p g, (0 < i)%nat -> nth_error signals (i - 1) = Some p ->
           guard p = Some g ->
           guard_of trap_tr = Some (str_replace ">=" ">" g)).
Proof.
  intros _ Hall. pose proof (all_present_ready _ Hall) as Hready.
  rewrite strict_monitor_monitor. unfold monitor.
  rewrite (linear_chain_strict _ _ _ _ _ Hready).
  eexists; split; [reflexivity|]. split; [reflexivity|].
  pose proof (strict_all_locations "pass" signals base) as Hl.
  pose proof (strict_all_transitions signal signals base) as Ht.
  rewrite (locations_of_template _ _ _ _ _ _ Hl Ht),
          (transitions_of_template _ _ _ _ _ _ Hl Ht).
  assert (Hlen : List.length
                   (map (chain_location signals base) (range (List.length signals))
                    ++ [tail_location "pass" signals base])
                 = (List.length signals + 1)%nat).
  { rewrite length_app, length_map. unfold range. now rewrite length_seq. }
  assert (Hlent : List.length
                    (map (chain_transition signals base) (range (List.length signals)))
                  = List.length signals).
  { rewrite length_map. unfold range. now rewrite length_seq. }
  split; [|split; [|split]].
  - rewrite linear_chain_plain. eexists. split; [reflexivity|].
    rewrite (locations_of_template _ _ _ _ _ _
               (chain_all_locations "pass" signals base)
               (chain_all_transitions signals base)),
            (transitions_of_template _ _ _ _ _ _
               (chain_all_locations "pass" signals base)
               (chain_all_transitions signals base)).
    split; apply firstn_exact; [rewrite Hlen; lia | exact Hlent].
  - rewrite length_app, Hlen, length_map. unfold range. rewrite length_seq. lia.
  - rewrite length_app, Hlent, length_map. unfold range. rewrite length_seq. lia.
  - intros i o Hi.
    assert (Hlt : (i < List.length signals)%nat)
      by (apply nth_error_Some; congruence).
    assert (Ho : obs signals i = o)
      by (unfold obs; now apply nth_error_nth).
    destruct (inv o) as [iv|] eqn:Hiv.
    2:{ exfalso. apply nth_error_In in Hi. now destruct (Hall o Hi). }
    exists iv, (fail_transition signal signals base i).
    split; [reflexivity|]. split; [|split].
    + rewrite nth_error_app2; rewrite Hlen; [|lia].
      replace (List.length signals + 1 + i - (List.length signals + 1))%nat
        with i by lia.
      unfold range. rewrite nth_error_map, nth_error_seq.
      apply Nat.ltb_lt in Hlt. rewrite Hlt. cbn [option_map Nat.add].
      unfold fail_location. rewrite Ho, Hiv. cbn [option_map].
      do 2 f_equal. lia.
    + rewrite nth_error_app2; rewrite Hlent; [|lia].
      replace (List.length signals + i - List.length signals)%nat with i by lia.
      unfold range. rewrite nth_error_map, nth_error_seq.
      apply Nat.ltb_lt in Hlt. now rewrite Hlt.
    + unfold fail_transition.
      rewrite source_ref_transition, target_ref_transition,
              guard_of_transition, sync_of_transition, Ho.
      split; [reflexivity|]. split; [do 2 f_equal; lia|]. split; [reflexivity|].
      split.
      * now intros ->.
      * intros p g Hpos Hp Hg. destruct i as [|i']; [lia|].
        replace (S i' - 1)%nat with i' in Hp by lia.
        unfold obs. rewrite (nth_error_nth _ _ no_observation Hp), Hg. reflexivity.
Qed.

(** Where the name is bound: in the strict chain, each of the first [n] locations is the source
    of exactly two transitions, the one of the main chain and the one into
    its trap; the tail location is the source of none; and the ids of the
    [n] trap locations differ from the [n + 1] ids of the main chain. *)
Theorem strict_monitor_degrees (name : string) (signals : list observation) (base : Z) :
  strict_ready signals ->
  exists t, monitor G name signals base true = Ok t /\
    (forall i, (i < List.length signals)%nat ->
       out_degree t (id_ref (base + Z.of_nat i)) = 2%nat /\
       map target_ref (outgoing t (id_ref (base + Z.of_nat i)))
         = [Some (id_ref (base + Z.of_nat i + 1));
            Some (id_ref (base + len signals + 1 + Z.of_nat i))]) /\
    out_degree t (id_ref (base + len signals)) = 0%nat /\
    map location_id_of (firstn (S (List.length signals)) (locations_of t))
      = map (fun i => Some (id_ref (base + Z.of_nat i)))
          (range (S (List.length signals))) /\
    map location_id_of (skipn (S (List.length signals)) (locations_of t))
      = map (fun i => Some (id_ref (base + len signals + 1 + Z.of_nat i)))
          (range (List.length signals)) /\
    (forall r,
       In r (map location_id_of (firstn (S (List.length signals)) (locations_of t))) ->
       ~ In r (map location_id_of (skipn (S (List.length signals)) (locations_of t)))).
Proof.
  intros Hready. unfold monitor.
  rewrite (linear_chain_strict _ _ _ _ _ Hready).
  eexists; split; [reflexivity|].
  pose proof (strict_all_locations "pass" signals base) as Hl.
  pose proof (strict_all_transitions signal signals base) as Ht.
  unfold out_degree, outgoing.
  rewrite (locations_of_template _ _ _ _ _ _ Hl Ht),
          (transitions_of_template _ _ _ _ _ _ Hl Ht).
  assert (Hlen : List.length
                   (map (chain_location signals base) (range (List.length signals))
                    ++ [tail_location "pass" signals base])
                 = S (List.length signals)).
  { rewrite length_app, length_map. unfold range. rewrite length_seq. simpl. lia. }
  rewrite (firstn_exact _ _ _ Hlen), (skipn_exact _ _ _ Hlen), chain_ids.
  assert (Htraps :
    map location_id_of (map (fail_location signals base) (range (List.length signals)))
    = map (fun i => Some (id_ref (base + len signals + 1 + Z.of_nat i)))
        (range (List.length signals))).
  { rewrite map_map. apply map_ext. intros i. unfold fail_location.
    rewrite location_id_of_location. do 2 f_equal. lia. }
  rewrite Htraps.
  split; [|split; [|split; [|split]]]; try reflexivity.
  - intros i Hi. rewrite filter_app. unfold range.
    rewrite (outgoing_one (chain_transition signals base) base) by (auto; lia).
    rewrite (outgoing_one (fail_transition signal signals base) base) by (auto; lia).
    split; [reflexivity|]. cbn [app map]. unfold chain_transition, fail_transition.
    rewrite !target_ref_transition.
    now replace (base + len signals + Z.of_nat i + 1)
      with (base + len signals + 1 + Z.of_nat i) by lia.
  - rewrite filter_app. unfold range, len.
    rewrite (outgoing_none (chain_transition signals base) base)
      by (auto; intros; lia).
    rewrite (outgoing_none (fail_transition signal signals base) base)
      by (auto; intros; lia).
    reflexivity.
  - intros r Hmain Htrap.
    apply in_map_iff in Hmain as (i & <- & Hi).
    apply in_map_iff in Htrap as (j & Hj & Hjn).
    apply some_id_ref_inj in Hj. apply in_range in Hi, Hjn. unfold len in Hj. lia.
Qed.

(** Where the name is bound: the strict loop calls [replace] on the invariant of every
    observation and on the guard of every observation but the last; so a
    strict synthesis on a list with a [None] invariant, or with a [None]
    guard before the last position, ends in [AttributeError] and returns
    no template. *)
Theorem strict_monitor_none_fails (name : string) (signals : list observation)
    (base : Z) :
  (exists i o, nth_error signals i = Some o /\ inv o = None) \/
  ((2 <= List.length signals)%nat /\
   exists i o, (i + 1 < List.length signals)%nat /\
     nth_error signals i = Some o /\ guard o = None) ->
  monitor G name signals base true = Raise AttributeError /\
  strict_monitor G name signals base = Raise AttributeError.
Proof.
  intros Hnone. rewrite strict_monitor_monitor.
  assert (H : monitor G name signals base true = Raise AttributeError); [|now split].
  unfold monitor, linear_chain.
  rewrite chain_locations_loop, chain_transitions_loop. resolve.
  match goal with
  | |- context [for_each ?xs ?body ?st] =>
      destruct (for_each xs body st) as [st'|e] eqn:Hloop
  end.
  - exfalso.
    assert (Hstuck : forall st, exists e,
      for_each (range (List.length signals))
        (strict_body G signals base signal) st = Raise e).
    { destruct Hnone as [(i & o & Hi & Hinv) | (_ & i & o & Hlt & Hi & Hg)].
      - assert (Hlt : (i < List.length signals)%nat)
          by (apply nth_error_Some; congruence).
        apply for_each_stuck with (x := i); [now apply in_range|].
        intros st. apply strict_body_stuck_inv; [assumption|].
        unfold obs. now rewrite (nth_error_nth _ _ no_observation Hi).
      - apply for_each_stuck with (x := (i + 1)%nat); [now apply in_range|].
        intros st. apply strict_body_stuck_guard; [assumption|].
        unfold obs. now rewrite (nth_error_nth _ _ no_observation Hi). }
    match type of Hloop with
    | for_each _ _ ?st = _ => destruct (Hstuck st) as [e He]
    end.
    congruence.
  - cbn [bind]. f_equal.
    eapply for_each_raises; [|exact Hloop].
    intros i st e' Hi. apply in_range in Hi. now apply strict_body_raises.
Qed.

(** The inner loops of [monitor_allpatterns], from any counter [j]. *)
Lemma trap_locations_inner signals base d i vs j locs :
  (i < List.length signals)%nat ->
  let ms := filter (fun value => py_ne (signal (obs signals i))
                                   (str_replace "!" "?" value)) vs in
  for_each vs (trap_location_body G signals base d i) (j, locs) =
  Ok ((j + List.length ms)%nat,
      locs ++ map (pattern_location base (List.length signals) (List.length d) i)
                (seq j (List.length ms))).
Proof.
  intros Hi. revert j locs.
  induction vs as [|v vs IH]; intros j locs; cbn [for_each filter].
  - cbn. now rewrite Nat.add_0_r, app_nil_r.
  - unfold trap_location_body at 1.
    rewrite (getitem_obs _ _ Hi); cbn [bind].
    destruct (py_ne (signal (obs signals i)) (str_replace "!" "?" v)).
    + resolve. rewrite IH. cbn [List.length seq map].
      rewrite <- app_assoc. cbn [app].
      now replace (S j + List.length
                     (filter (fun value => py_ne (signal (obs signals i))
                                             (str_replace "!" "?" value)) vs))%nat
        with (j + S (List.length
                     (filter (fun value => py_ne (signal (obs signals i))
                                             (str_replace "!" "?" value)) vs)))%nat
        by lia.
    + apply IH.
Qed.

Lemma trap_transitions_inner signals base d i vs j trs :
  (i < List.length signals)%nat ->
  let ms := filter (fun value => py_ne (signal (obs signals i))
                                   (str_replace "!" "?" value)) vs in
  for_each vs (trap_transition_body G signals base d i) (j, trs) =
  Ok ((j + List.length ms)%nat,
      trs ++ map (pattern_transition base (List.length signals) (List.length d) i)
               (combine (seq j (List.length ms)) ms)).
Proof.
  intros Hi. revert j trs.
  induction vs as [|v vs IH]; intros j trs; cbn [for_each filter].
  - cbn. now rewrite Nat.add_0_r, app_nil_r.
  - unfold trap_transition_body at 1.
    rewrite (getitem_obs _ _ Hi); cbn [bind].
    destruct (py_ne (signal (obs signals i)) (str_replace "!" "?" v)).
    + resolve. rewrite IH. cbn [List.length seq combine map].
      rewrite <- app_assoc. cbn [app].
      now replace (S j + List.length
                     (filter (fun value => py_ne (signal (obs signals i))
                                             (str_replace "!" "?" value)) vs))%nat
        with (j + S (List.length
                     (filter (fun value => py_ne (signal (obs signals i))
                                             (str_replace "!" "?" value)) vs)))%nat
        by lia.
    + apply IH.
Qed.

(** [monitor_allpatterns] as a whole. *)
Lemma monitor_allpatterns_eq name signals base d :
  monitor_allpatterns G name signals base d =
  Ok (template name
        ((map (bare_location base) (range (List.length signals))
          ++ [tail_location "pass" signals base])
         ++ flat_map (pattern_locations signals base d) (range (List.length signals)))
        base
        (map (bare_transition signals base) (range (List.length signals))
         ++ flat_map (pattern_transitions signals base d) (range (List.length signals)))
        None None).
Proof.
  unfold monitor_allpatterns.
  rewrite (for_each_collect _ _ (bare_location base)) by (intros; now resolve).
  resolve. cbn [app].
  rewrite (for_each_collect_many _ _ (pattern_locations signals base d)).
  2:{ intros i acc Hi. apply in_range in Hi.
      now rewrite (trap_locations_inner _ _ _ _ _ _ _ Hi). }
  cbn [bind].
  rewrite (for_each_collect _ _ (bare_transition signals base)).
  2:{ intros i acc Hi. apply in_range in Hi. resolve.
      now rewrite (getitem_obs _ _ Hi). }
  cbn [bind app].
  rewrite (for_each_collect_many _ _ (pattern_transitions signals base d)).
  2:{ intros i acc Hi. apply in_range in Hi.
      now rewrite (trap_transitions_inner _ _ _ _ _ _ _ Hi). }
  reflexivity.
Qed.

End Bound.

(** ** Identifiers of the all-patterns traps *)

Lemma mismatches_le (o : observation) (d : list (string * string)) :
  (List.length (mismatches o d) <= List.length d)%nat.
Proof.
  unfold mismatches, values.
  etransitivity; [apply filter_length_le|]. now rewrite length_map.
Qed.

Lemma occurs_mismatches (o : observation) (d : list (string * string)) :
  occurs o d -> (List.length (mismatches o d) < List.length d)%nat.
Proof.
  intros (v & Hv & Hsig). unfold mismatches.
  replace (List.length d) with (List.length (values d))
    by (unfold values; apply length_map).
  apply filter_drops with (x := v); [assumption|].
  rewrite Hsig. cbn. now rewrite String.eqb_refl.
Qed.

Lemma occurs_once_mismatches (o : observation) (d : list (string * string)) :
  occurs_once o d -> List.length (mismatches o d) = (List.length d - 1)%nat.
Proof.
  unfold occurs_once, mismatches. intros H.
  pose proof (filter_length
                (fun value => py_ne (signal o) (str_replace "!" "?" value))
                (values d)) as Hsum.
  unfold values in *. rewrite length_map in Hsum. lia.
Qed.

(** The traps lie above the main chain. *)
Lemma trap_ids_above (signals : list observation) (base : Z)
    (d : list (string * string)) (z : Z) :
  In z (trap_ids signals base d) -> base + len signals < z.
Proof.
  unfold trap_ids. intros H.
  apply in_flat_map in H as (i & _ & H).
  apply in_map_iff in H as (j & <- & Hj). apply in_seq in Hj.
  pose proof (mismatches_le (obs signals i) d).
  unfold trap_id, len. nia.
Qed.

(** Where every expected signal is in the alphabet, the blocks of
    consecutive locations do not overlap. *)
Lemma trap_ids_NoDup (signals : list observation) (base : Z)
    (d : list (string * string)) :
  (forall o, In o signals -> occurs o d) ->
  NoDup (trap_ids signals base d).
Proof.
  intros Hocc. unfold trap_ids, range.
  destruct d as [|e d'] eqn:Hd.
  { destruct signals as [|o signals']; [constructor|].
    destruct (Hocc o (or_introl eq_refl)) as (v & [] & _). }
  rewrite <- Hd in *.
  assert (Hk : (1 <= List.length d)%nat) by (rewrite Hd; cbn; lia).
  apply NoDup_blocks
    with (lo := fun i => trap_id base (List.length signals) (List.length d) i 0).
  - intros i. unfold trap_id. nia.
  - intros i _. apply Injective_map_NoDup; [|apply seq_NoDup].
    intros a b. unfold trap_id. lia.
  - intros i z Hi Hz. apply in_map_iff in Hz as (j & <- & Hj). apply in_seq in Hj.
    assert (Hm : (List.length (mismatches (obs signals i) d) < List.length d)%nat).
    { apply occurs_mismatches, Hocc. unfold obs. apply nth_In. lia. }
    unfold trap_id. nia.
Qed.

Lemma main_ids_NoDup (signals : list observation) (base : Z) :
  NoDup (main_ids signals base).
Proof.
  unfold main_ids. apply Injective_map_NoDup; [|apply seq_NoDup].
  intros a b. lia.
Qed.

Lemma all_ids_NoDup (signals : list observation) (base : Z)
    (d : list (string * string)) :
  (forall o, In o signals -> occurs o d) ->
  NoDup (map (fun z => Some (id_ref z))
           (main_ids signals base ++ trap_ids signals base d)).
Proof.
  intros Hocc. apply Injective_map_NoDup.
  - intros a b. apply some_id_ref_inj.
  - apply NoDup_app.
    + apply main_ids_NoDup.
    + now apply trap_ids_NoDup.
    + intros z Hmain Htrap. apply trap_ids_above in Htrap.
      unfold main_ids in Hmain. apply in_map_iff in Hmain as (i & <- & Hi).
      apply in_range in Hi. unfold len in Htrap. lia.
Qed.

Lemma trap_ids_length (signals : list observation) (base : Z)
    (d : list (string * string)) :
  List.length (trap_ids signals base d)
  = list_sum (map (fun i => List.length (mismatches (obs signals i) d))
                (range (List.length signals))).
Proof.
  unfold trap_ids. rewrite length_flat_map. f_equal.
  apply map_ext. intros i. now rewrite length_map, length_seq.
Qed.

(** ** The all-patterns chain *)

Section BoundPatterns.

Variable G : globals.
Hypothesis G_bound : G "UppaalFactory" = Some Class_UFactory.

Lemma patterns_all_locations signals base d :
  all_locations
    ((map (bare_location base) (range (List.length signals))
      ++ [tail_location "pass" signals base])
     ++ flat_map (pattern_locations signals base d) (range (List.length signals))).
Proof.
  repeat (apply Forall_app; split).
  - now apply all_locations_map.
  - now constructor.
  - apply Forall_forall. intros e He.
    apply in_flat_map in He as (i & _ & He).
    apply in_map_iff in He as (j & <- & _). reflexivity.
Qed.

Lemma patterns_all_transitions signals base d :
  all_transitions
    (map (bare_transition signals base) (range (List.length signals))
     ++ flat_map (pattern_transitions signals base d) (range (List.length signals))).
Proof.
  apply Forall_app; split.
  - now apply all_transitions_map.
  - apply Forall_forall. intros e He.
    apply in_flat_map in He as (i & _ & He).
    apply in_map_iff in He as (j & <- & _). reflexivity.
Qed.

Lemma patterns_main_length signals base :
  List.length (map (bare_location base) (range (List.length signals))
               ++ [tail_location "pass" signals base])
  = S (List.length signals).
Proof.
  rewrite length_app, length_map. unfold range. rewrite length_seq. cbn. lia.
Qed.

Lemma patterns_main_ids signals base :
  map location_id_of
    (map (bare_location base) (range (List.length signals))
     ++ [tail_location "pass" signals base])
  = map (fun z => Some (id_ref z)) (main_ids signals base).
Proof.
  unfold main_ids, range. rewrite seq_S, !map_app, !map_map. reflexivity.
Qed.

Lemma patterns_trap_ids signals base d :
  map location_id_of
    (flat_map (pattern_locations signals base d) (range (List.length signals)))
  = map (fun z => Some (id_ref z)) (trap_ids signals base d).
Proof.
  unfold trap_ids. rewrite !map_flat_map. apply flat_map_ext. intros i.
  unfold pattern_locations. now rewrite !map_map.
Qed.

(** C4, in a namespace where [UppaalFactory] denotes the class: the
    all-patterns synthesizer returns a template; the trap of location [i] and of its [j]-th
    non-matching alphabet entry, [j] counted from [0] at every location,
    has the id [base + n + 1 + i * (k - 1) + j]; every trap id is above the
    main range; where every chain signal occurs among the normalized
    alphabet values, all location ids are distinct and there are at most
    [n * (k - 1)] traps; where every chain signal is the normalized value
    of exactly one alphabet entry, there are exactly [n * (k - 1)]. *)
Theorem allpatterns_trap_ids (name : string) (signals : list observation)
    (base : Z) (d : list (string * string)) :
  exists t, monitor_allpatterns G name signals base d = Ok t /\
    map location_id_of (firstn (S (List.length signals)) (locations_of t))
      = map (fun z => Some (id_ref z)) (main_ids signals base) /\
    map location_id_of (trap_locations_of (List.length signals) t)
      = map (fun z => Some (id_ref z)) (trap_ids signals base d) /\
    (forall z, In z (trap_ids signals base d) -> base + len signals < z) /\
    (forall r,
       In r (map location_id_of (firstn (S (List.length signals)) (locations_of t))) ->
       ~ In r (map location_id_of (trap_locations_of (List.length signals) t))) /\
    ((forall o, In o signals -> occurs o d) ->
       NoDup (map location_id_of (locations_of t)) /\
       (List.length (trap_locations_of (List.length signals) t)
        <= List.length signals * (List.length d - 1))%nat) /\
    ((forall o, In o signals -> occurs_once o d) ->
       List.length (trap_locations_of (List.length signals) t)
       = (List.length signals * (List.length d - 1))%nat).
Proof.
  rewrite (monitor_allpatterns_eq G G_bound). eexists; split; [reflexivity|].
  pose proof (patterns_all_locations signals base d) as Hl.
  pose proof (patterns_all_transitions signals base d) as Ht.
  unfold trap_locations_of.
  rewrite (locations_of_template _ _ _ _ _ _ Hl Ht).
  rewrite (firstn_exact _ _ _ (patterns_main_length signals base)),
          (skipn_exact _ _ _ (patterns_main_length signals base)).
  rewrite patterns_main_ids, patterns_trap_ids.
  assert (Hcount :
    List.length (flat_map (pattern_locations signals base d)
                   (range (List.length signals)))
    = list_sum (map (fun i => List.length (mismatches (obs signals i) d))
                  (range (List.length signals)))).
  { rewrite <- (trap_ids_length signals base d).
    rewrite <- (length_map location_id_of), patterns_trap_ids.
    now rewrite length_map. }
  split; [reflexivity|]. split; [reflexivity|].
  split; [apply trap_ids_above|]. split; [|split].
  - intros r Hmain Htrap.
    apply in_map_iff in Hmain as (a & <- & Ha).
    apply in_map_iff in Htrap as (b & Hb & Hbt).
    apply some_id_ref_inj in Hb. subst b. apply trap_ids_above in Hbt.
    unfold main_ids in Ha. apply in_map_iff in Ha as (i & <- & Hi).
    apply in_range in Hi. unfold len in Hbt. lia.
  - intros Hocc. split.
    + rewrite map_app, patterns_main_ids, patterns_trap_ids, <- map_app.
      now apply all_ids_NoDup.
    + rewrite Hcount.
      replace (List.length signals) with (List.length (range (List.length signals)))
        at 2 by (unfold range; apply length_seq).
      apply list_sum_bound. intros i Hi. apply in_range in Hi.
      assert (occurs (obs signals i) d)
        by (apply Hocc; unfold obs; now apply nth_In).
      pose proof (occurs_mismatches _ _ H). lia.
  - intros Honce. rewrite Hcount.
    replace (List.length signals) with (List.length (range (List.length signals)))
      at 2 by (unfold range; apply length_seq).
    apply list_sum_const. intros i Hi. apply in_range in Hi.
    apply occurs_once_mismatches, Honce. unfold obs. now apply nth_In.
Qed.

(** C6, in a namespace where [UppaalFactory] denotes the class: the
    all-patterns synthesizer returns a template whose main chain has
    the ids, the sources, the targets and the synchronisations of the plain
    chain, but location [i] carries no invariant and transition [i] no
    guard, whatever the invariant and the guard of [signals[i]] are; no
    location of the template has an invariant and no transition a guard. *)
Theorem allpatterns_main_chain (name : string) (signals : list observation)
    (base : Z) (d : list (string * string)) :
  exists t, monitor_allpatterns G name signals base d = Ok t /\
    (forall i o, nth_error signals i = Some o ->
       exists l tr,
         nth_error (locations_of t) i = Some l /\
         location_id_of l = Some (id_ref (base + Z.of_nat i)) /\
         invariant_of l = None /\
         nth_error (transitions_of t) i = Some tr /\
         source_ref tr = Some (id_ref (base + Z.of_nat i)) /\
         target_ref tr = Some (id_ref (base + Z.of_nat i + 1)) /\
         guard_of tr = None /\
         sync_of tr = signal o) /\
    (forall l, In l (locations_of t) -> invariant_of l = None) /\
    (forall tr, In tr (transitions_of t) -> guard_of tr = None).
Proof.
  rewrite (monitor_allpatterns_eq G G_bound). eexists; split; [reflexivity|].
  pose proof (patterns_all_locations signals base d) as Hl.
  pose proof (patterns_all_transitions signals base d) as Ht.
  rewrite (locations_of_template _ _ _ _ _ _ Hl Ht),
          (transitions_of_template _ _ _ _ _ _ Hl Ht).
  split; [|split].
  - intros i o Hi.
    assert (Hlt : (i < List.length signals)%nat)
      by (apply nth_error_Some; congruence).
    assert (Ho : obs signals i = o)
      by (unfold obs; now apply nth_error_nth).
    assert (Hb : (i <? List.length signals)%nat = true) by now apply Nat.ltb_lt.
    exists (bare_location base i), (bare_transition signals base i).
    split; [|split; [|split; [|split]]].
    + rewrite <- app_assoc, nth_error_app1
        by (rewrite length_map; unfold range; now rewrite length_seq).
      unfold range. now rewrite nth_error_map, nth_error_seq, Hb.
    + reflexivity.
    + reflexivity.
    + rewrite nth_error_app1
        by (rewrite length_map; unfold range; now rewrite length_seq).
      unfold range. now rewrite nth_error_map, nth_error_seq, Hb.
    + unfold bare_transition.
      rewrite source_ref_transition, target_ref_transition,
              guard_of_transition, sync_of_transition, Ho. auto.
  - intros l Hin. rewrite !in_app_iff in Hin.
    destruct Hin as [[Hin|[<-|[]]]|Hin]; try reflexivity.
    + apply in_map_iff in Hin as (i & <- & _). reflexivity.
    + apply in_flat_map in Hin as (i & _ & Hin).
      apply in_map_iff in Hin as (j & <- & _). reflexivity.
  - intros tr Hin. rewrite in_app_iff in Hin. destruct Hin as [Hin|Hin].
    + apply in_map_iff in Hin as (i & <- & _). unfold bare_transition.
      now rewrite guard_of_transition.
    + apply in_flat_map in Hin as (i & _ & Hin).
      apply in_map_iff in Hin as (jv & <- & _). unfold pattern_transition.
      now rewrite guard_of_transition.
Qed.

End BoundPatterns.

(** ** Comparator tightening *)

Lemma str_replace_from_scan (old new : string) (c : ascii) (s : string) :
  str_replace_from old new 0 (String c s)
  = if prefix old (String c s)
    then (new ++ str_replace_from old new (String.length old - 1) s)%string
    else String c (str_replace_from old new 0 s).
Proof. reflexivity. Qed.

Lemma str_replace_from_skip (old new : string) (k : nat) (c : ascii) (s : string) :
  str_replace_from old new (S k) (String c s) = str_replace_from old new k s.
Proof. reflexivity. Qed.

Lemma prefix_comparator (a : ascii) (c : string) :
  prefix (String a "=") (String a (String "=" c)) = true.
Proof.
  cbn. destruct (Ascii.ascii_dec a a) as [_|Hne]; [|contradiction].
  now destruct c.
Qed.

Lemma prefix_other (a b : ascii) (old s : string) :
  a <> b -> prefix (String a old) (String b s) = false.
Proof.
  intros Hne. cbn. now destruct (Ascii.ascii_dec a b).
Qed.

Lemma has_char_cons (a c : ascii) (s : string) :
  has_char a (String c s) = false -> a <> c /\ has_char a s = false.
Proof.
  cbn. intros H. apply orb_false_iff in H as [Hc Hs]. split; [|assumption].
  intros ->. now rewrite Ascii.eqb_refl in Hc.
Qed.

(** A text without the comparator character is left as it is. *)
Lemma str_replace_from_absent (a : ascii) (new s : string) :
  has_char a s = false ->
  str_replace_from (String a "=") new 0 s = s.
Proof.
  induction s as [|c s IH]; intros H; [reflexivity|].
  apply has_char_cons in H as [Hne Hs].
  rewrite str_replace_from_scan, (prefix_other _ _ _ _ Hne). now rewrite IH.
Qed.

(** [x<=c] becomes [x<c] and [x>=c] becomes [x>c], with the same operands,
    where the operands do not contain the comparator character. *)
Lemma str_replace_comparator (a : ascii) (x c : string) :
  has_char a x = false -> has_char a c = false ->
  str_replace (String a "=") (String a "") (x ++ String a (String "=" c))
  = (x ++ String a c)%string.
Proof.
  intros Hx Hc. unfold str_replace.
  induction x as [|y x IH]; cbn [String.append].
  - rewrite str_replace_from_scan, prefix_comparator.
    cbn [String.length Nat.sub]. rewrite str_replace_from_skip.
    cbn [String.append]. f_equal. now apply str_replace_from_absent.
  - apply has_char_cons in Hx as [Hne Hx].
    rewrite str_replace_from_scan, (prefix_other _ _ _ _ Hne). now rewrite IH.
Qed.

Lemma tighten_invariant (x c : string) :
  has_char "<" x = false -> has_char "<" c = false ->
  str_replace "<=" "<" (x ++ "<=" ++ c) = (x ++ "<" ++ c)%string.
Proof. apply (str_replace_comparator "<"). Qed.

Lemma tighten_guard (x c : string) :
  has_char ">" x = false -> has_char ">" c = false ->
  str_replace ">=" ">" (x ++ ">=" ++ c) = (x ++ ">" ++ c)%string.
Proof. apply (str_replace_comparator ">"). Qed.

(** ** The template builder *)

(** C7: the children of a template come in the order name, parameter (if
    given), declaration (if given), locations, init, transitions; but the
    text of the declaration child is the parameter argument, not the
    declaration argument: with no parameter and the declaration
    "clock t;" the declaration child has no text. *)
Theorem template_declaration_text :
  (forall name locations init_id transitions parameter decl,
     children (template name locations init_id transitions parameter (Some decl))
     = [mkElement "name" [] (Some name) []]
       ++ (match parameter with
           | Some p => [mkElement "parameter" [] (Some p) []]
           | None => []
           end)
       ++ [mkElement "declaration" [] parameter []]
       ++ locations
       ++ [mkElement "init" [("ref", id_ref init_id)] None []]
       ++ transitions) /\
  template "Template" [] 0 [] None (Some "clock t;")
  = mkElement "template" [] None
      [mkElement "name" [] (Some "Template") [];
       mkElement "declaration" [] None [];
       mkElement "init" [("ref", "id0")] None []] /\
  bind_opt (find_child "declaration"
              (template "Template" [] 0 [] None (Some "clock t;"))) text
  <> Some "clock t;".
Proof.
  split; [|split].
  - intros. reflexivity.
  - reflexivity.
  - discriminate.
Qed.

(** Without a declaration argument the builder does assemble the children
    in the documented order. *)
Lemma template_children_plain name locations init_id transitions :
  children (template name locations init_id transitions None None)
  = [mkElement "name" [] (Some name) []]
    ++ locations
    ++ [mkElement "init" [("ref", id_ref init_id)] None []]
    ++ transitions.
Proof. reflexivity. Qed.

(** ** The module as it is written *)

(** C9: no global of the module is named [UppaalFactory]; so [queries] on
    a non-empty list, and [monitor], [strict_monitor],
    [monitor_allpatterns] and [input] on every input, raise [NameError]
    and return no element. *)
Theorem module_raises_NameError :
  module_globals "UppaalFactory" = None /\
  module_globals "UFactory" = Some Class_UFactory /\
  (forall q qs, queries module_globals (q :: qs) = Raise NameError) /\
  (forall name signals base strict,
     monitor module_globals name signals base strict = Raise NameError) /\
  (forall name signals base,
     strict_monitor module_globals name signals base = Raise NameError) /\
  (forall name signals base d,
     monitor_allpatterns module_globals name signals base d = Raise NameError) /\
  (forall name signals base strict,
     input module_globals name signals base strict = Raise NameError).
Proof.
  repeat split.
  - intros name [|o signals] base strict; reflexivity.
  - intros name [|o signals] base d; reflexivity.
  - intros name [|o signals] base strict; reflexivity.
Qed.

(** Only the empty query list gets past the loop. *)
Lemma queries_empty (G : globals) :
  queries G [] = Ok (mkElement "queries" [] None []).
Proof. reflexivity. Qed.

(** ** Duplicate identifiers *)

(** Where the name is bound: on the two-signal chain and an alphabet that contains neither
    signal, the all-patterns synthesizer gives the id 4 to the second trap
    of location 0 and to the first trap of location 1. *)
Theorem allpatterns_duplicate_ids :
  exists t,
    monitor_allpatterns aliased_globals "Monitor" two_signals 0 foreign_alphabet
      = Ok t /\
    map location_id_of (locations_of t)
      = [Some "id0"; Some "id1"; Some "id2";
         Some "id3"; Some "id4"; Some "id4"; Some "id5"] /\
    ~ NoDup (map location_id_of (locations_of t)).
Proof.
  eexists. split; [vm_compute; reflexivity|].
  split; [reflexivity|].
  intros H. cbv in H.
  repeat match goal with
         | H : NoDup (_ :: _) |- _ => inversion_clear H
         end.
  match goal with
  | Hn : ~ In (Some "id4") (Some "id4" :: _) |- _ => apply Hn; now left
  end.
Qed.

(** ** The scenarios of the documentation, evaluated *)

Example plain_scenario :
  exists t, monitor aliased_globals "Monitor" two_signals 1 false = Ok t /\
    map location_id_of (locations_of t) = [Some "id1"; Some "id2"; Some "id3"] /\
    map name_of (locations_of t) = [None; None; Some "pass"] /\
    map invariant_of (locations_of t) = [Some "gclk<=10"; Some "gclk<=8"; None] /\
    init_ref t = Some "id1" /\
    map (fun tr => (source_ref tr, target_ref tr, guard_of tr, sync_of tr))
      (transitions_of t)
    = [(Some "id1", Some "id2", Some "gclk>=5", Some "sigA?");
       (Some "id2", Some "id3", Some "gclk>=2", Some "sigB?")].
Proof.
  eexists. split; [vm_compute; reflexivity|]. repeat split.
Qed.

Example strict_scenario :
  exists t, strict_monitor aliased_globals "Monitor" two_signals 1 = Ok t /\
    map location_id_of (locations_of t)
    = [Some "id1"; Some "id2"; Some "id3"; Some "id4"; Some "id5"] /\
    map name_of (skipn 3 (locations_of t)) = [Some "fail0"; Some "fail1"] /\
    map invariant_of (skipn 3 (locations_of t)) = [Some "gclk<10"; Some "gclk<8"] /\
    map (fun l => (get l "x", get l "y")) (skipn 3 (locations_of t))
    = [(Some "0", Some "-200"); (Some "300", Some "-200")] /\
    map (fun tr => (source_ref tr, target_ref tr, guard_of tr, sync_of tr))
      (skipn 2 (transitions_of t))
    = [(Some "id1", Some "id4", None, Some "sigA?");
       (Some "id2", Some "id5", Some "gclk>5", Some "sigB?")].
Proof.
  eexists. split; [vm_compute; reflexivity|]. repeat split.
Qed.

Example allpatterns_scenario :
  exists t,
    monitor_allpatterns aliased_globals "Monitor" two_signals 1 exact_alphabet = Ok t /\
    map location_id_of (locations_of t)
    = [Some "id1"; Some "id2"; Some "id3"; Some "id4"; Some "id5"] /\
    map (fun tr => (source_ref tr, target_ref tr, guard_of tr, sync_of tr))
      (transitions_of t)
    = [(Some "id1", Some "id2", None, Some "sigA?");
       (Some "id2", Some "id3", None, Some "sigB?");
       (Some "id1", Some "id4", None, Some "sigB?");
       (Some "id2", Some "id5", None, Some "sigA?")].
Proof.
  eexists. split; [vm_compute; reflexivity|]. repeat split.
Qed.

(** ** Instances *)

Lemma aliased_bound : aliased_globals "UppaalFactory" = Some Class_UFactory.
Proof. reflexivity. Defined.

Lemma two_signals_present :
  forall o, In o two_signals -> inv o <> None /\ guard o <> None.
Proof.
  intros o [<-|[<-|[]]]; split; discriminate.
Defined.

Lemma two_signals_ready : strict_ready two_signals.
Proof.
  intros [|[|i]] Hi; cbn in *; try lia; split; discriminate.
Defined.

Lemma monitor_plain_shape_witness :
  aliased_globals "UppaalFactory" = Some Class_UFactory /\
  exists t, monitor aliased_globals "Monitor" two_signals 1 false = Ok t /\
    List.length (locations_of t) = 3%nat /\
    List.length (transitions_of t) = 2%nat /\
    init_ref t = Some (id_ref 1).
Proof.
  split; [reflexivity|].
  destruct (monitor_plain_shape aliased_globals aliased_bound "Monitor" two_signals 1)
    as (t & Hrun & Hlocs & Htrs & _ & Hinit & _).
  exists t. repeat split; assumption.
Defined.

Lemma monitor_plain_path_witness :
  aliased_globals "UppaalFactory" = Some Class_UFactory /\
  exists t, monitor aliased_globals "Monitor" two_signals 1 false = Ok t /\
    NoDup (map location_id_of (locations_of t)).
Proof.
  split; [reflexivity|].
  destruct (monitor_plain_path aliased_globals aliased_bound "Monitor" two_signals 1)
    as (t & Hrun & _ & _ & _ & _ & _ & Hnodup).
  exists t. split; assumption.
Defined.

Lemma strict_monitor_traps_witness :
  aliased_globals "UppaalFactory" = Some Class_UFactory /\
  (1 <= List.length two_signals)%nat /\
  (forall o, In o two_signals -> inv o <> None /\ guard o <> None) /\
  exists t, strict_monitor aliased_globals "Monitor" two_signals 1 = Ok t /\
    List.length (locations_of t) = 5%nat /\
    List.length (transitions_of t) = 4%nat.
Proof.
  split; [reflexivity|].
  assert (Hn : (1 <= List.length two_signals)%nat) by (cbn; lia).
  split; [exact Hn|]. split; [exact two_signals_present|].
  destruct (strict_monitor_traps aliased_globals aliased_bound "Monitor"
              two_signals 1 Hn two_signals_present)
    as (t & Hrun & _ & _ & Hlocs & Htrs & _).
  exists t. repeat split; assumption.
Defined.

Lemma strict_monitor_degrees_witness :
  aliased_globals "UppaalFactory" = Some Class_UFactory /\
  strict_ready two_signals /\
  exists t, monitor aliased_globals "Monitor" two_signals 1 true = Ok t /\
    out_degree t (id_ref 1) = 2%nat /\
    out_degree t (id_ref 3) = 0%nat.
Proof.
  split; [reflexivity|]. split; [exact two_signals_ready|].
  destruct (strict_monitor_degrees aliased_globals aliased_bound "Monitor"
              two_signals 1 two_signals_ready)
    as (t & Hrun & Hout & Htail & _).
  exists t. split; [assumption|]. split; [|exact Htail].
  apply (Hout O). cbn. lia.
Defined.

Lemma strict_monitor_none_fails_witness :
  aliased_globals "UppaalFactory" = Some Class_UFactory /\
  nth_error untimed_second 1 = Some (mkObservation (Some "sigB?") (Some "gclk>=2") None) /\
  monitor aliased_globals "Monitor" untimed_second 1 true = Raise AttributeError.
Proof.
  split; [reflexivity|]. split; [reflexivity|].
  apply (strict_monitor_none_fails aliased_globals aliased_bound "Monitor"
           untimed_second 1).
  left. exists 1%nat, (mkObservation (Some "sigB?") (Some "gclk>=2") None).
  split; reflexivity.
Defined.

Lemma exact_alphabet_once :
  forall o, In o two_signals -> occurs_once o exact_alphabet.
Proof.
  intros o [<-|[<-|[]]]; reflexivity.
Defined.

Lemma allpatterns_trap_ids_witness :
  aliased_globals "UppaalFactory" = Some Class_UFactory /\
  (forall o, In o two_signals -> occurs_once o exact_alphabet) /\
  exists t,
    monitor_allpatterns aliased_globals "Monitor" two_signals 1 exact_alphabet = Ok t /\
    List.length (trap_locations_of 2 t) = 2%nat.
Proof.
  split; [reflexivity|]. split; [exact exact_alphabet_once|].
  destruct (allpatterns_trap_ids aliased_globals aliased_bound "Monitor"
              two_signals 1 exact_alphabet)
    as (t & Hrun & _ & _ & _ & _ & _ & Hcount).
  exists t. split; [assumption|]. exact (Hcount exact_alphabet_once).
Defined.

Lemma allpatterns_main_chain_witness :
  aliased_globals "UppaalFactory" = Some Class_UFactory /\
  exists t,
    monitor_allpatterns aliased_globals "Monitor" two_signals 1 exact_alphabet = Ok t /\
    (forall l, In l (locations_of t) -> invariant_of l = None).
Proof.
  split; [reflexivity|].
  destruct (allpatterns_main_chain aliased_globals aliased_bound "Monitor"
              two_signals 1 exact_alphabet)
    as (t & Hrun & _ & Hinv & _).
  exists t. split; assumption.
Defined.

(** ** Counts and invariants of the all-patterns chain, evaluated *)

(** Where the name is bound: both alphabet entries carry the expected signal, so it
    occurs among the normalized values, yet there is no trap where
    [n * (k - 1)] is one. *)
Lemma allpatterns_count_counterexample :
  (forall o, In o one_signal -> occurs o repeated_alphabet) /\
  exists t,
    monitor_allpatterns aliased_globals "Monitor" one_signal 0 repeated_alphabet
      = Ok t /\
    List.length (trap_locations_of (List.length one_signal) t) = 0%nat /\
    (List.length one_signal * (List.length repeated_alphabet - 1))%nat = 1%nat.
Proof.
  split.
  - intros o [<-|[]]. exists "sigA!". split; [now left | reflexivity].
  - eexists. split; [vm_compute; reflexivity|]. split; reflexivity.
Qed.

(** Where the name is bound: the first observation has the invariant [gclk<=10] and
    the guard [gclk>=5], and the main chain of the all-patterns template
    carries neither. *)
Lemma allpatterns_invariant_counterexample :
  exists t l tr o,
    monitor_allpatterns aliased_globals "Monitor" two_signals 1 exact_alphabet = Ok t /\
    nth_error two_signals 0 = Some o /\
    nth_error (locations_of t) 0 = Some l /\
    nth_error (transitions_of t) 0 = Some tr /\
    inv o = Some "gclk<=10" /\ invariant_of l = None /\
    guard o = Some "gclk>=5" /\ guard_of tr = None.
Proof.
  do 4 eexists. split; [vm_compute; reflexivity|].
  repeat split; reflexivity.
Qed.

(** * Further properties of the builders and of the synthesizers *)

(** ** Identifiers *)

(** The text [id<n>] of an identifier determines the integer [n]: two
    elements carry the same [id] or [ref] attribute only if they were built
    from the same integer. *)
Theorem id_text_distinguishes (a b : Z) : id_ref a = id_ref b <-> a = b.
Proof.
  split; [apply id_ref_inj | now intros ->].
Qed.

(** ** Building and reading back *)

(** Every argument of [location] is read back from the element: the id,
    the position, the name, the invariant and the committed marker; the
    name sits 20 above the location and the invariant 40 above it. *)
Theorem location_read_back (location_id pos_x pos_y : Z)
    (iv nm : option string) (is_committed : bool) :
  location_id_of (location location_id pos_x pos_y iv nm is_committed)
    = Some (id_ref location_id) /\
  pos_of (location location_id pos_x pos_y iv nm is_committed)
    = Some (py_str pos_x, py_str pos_y) /\
  name_of (location location_id pos_x pos_y iv nm is_committed) = nm /\
  invariant_of (location location_id pos_x pos_y iv nm is_committed) = iv /\
  committed_of (location location_id pos_x pos_y iv nm is_committed) = is_committed /\
  bind_opt (find_child "name" (location location_id pos_x pos_y iv nm is_committed))
    pos_of
    = option_map (fun _ => (py_str pos_x, py_str (pos_y - 20))) nm /\
  bind_opt (find_label "invariant"
              (location location_id pos_x pos_y iv nm is_committed)) pos_of
    = option_map (fun _ => (py_str pos_x, py_str (pos_y - 40))) iv.
Proof.
  destruct iv, nm, is_committed; repeat split.
Qed.

(** Every argument of [transition] is read back from the element; the
    labels come in the order guard, synchronisation, assignment, at the
    anchor, 30 above it and 60 above it. *)
Theorem transition_read_back (sourceID targetID pos_x pos_y : Z)
    (g sy r : option string) :
  source_ref (transition sourceID targetID pos_x pos_y g sy r)
    = Some (id_ref sourceID) /\
  target_ref (transition sourceID targetID pos_x pos_y g sy r)
    = Some (id_ref targetID) /\
  guard_of (transition sourceID targetID pos_x pos_y g sy r) = g /\
  sync_of (transition sourceID targetID pos_x pos_y g sy r) = sy /\
  assignment_of (transition sourceID targetID pos_x pos_y g sy r) = r /\
  label_kinds (transition sourceID targetID pos_x pos_y g sy r)
    = (match g with Some _ => [Some "guard"] | None => [] end)
      ++ (match sy with Some _ => [Some "synchronisation"] | None => [] end)
      ++ (match r with Some _ => [Some "assignment"] | None => [] end) /\
  bind_opt (find_label "guard" (transition sourceID targetID pos_x pos_y g sy r))
    pos_of
    = option_map (fun _ => (py_str pos_x, py_str pos_y)) g /\
  bind_opt (find_label "synchronisation"
              (transition sourceID targetID pos_x pos_y g sy r)) pos_of
    = option_map (fun _ => (py_str pos_x, py_str (pos_y - 30))) sy /\
  bind_opt (find_label "assignment"
              (transition sourceID targetID pos_x pos_y g sy r)) pos_of
    = option_map (fun _ => (py_str pos_x, py_str (pos_y - 60))) r.
Proof.
  destruct g, sy, r; repeat split.
Qed.

(** A template built from location elements and transition elements gives
    them back, in order, whatever the parameter and the declaration are;
    its init reference is the given id, whether or not a location has it;
    its name and its parameter are the given ones. *)
Theorem template_read_back (name : string) (locations : list Element)
    (init_id : Z) (transitions : list Element) (parameter decl : option string) :
  all_locations locations -> all_transitions transitions ->
  locations_of (template name locations init_id transitions parameter decl)
    = locations /\
  transitions_of (template name locations init_id transitions parameter decl)
    = transitions /\
  init_ref (template name locations init_id transitions parameter decl)
    = Some (id_ref init_id) /\
  bind_opt (find_child "name"
              (template name locations init_id transitions parameter decl)) text
    = Some name /\
  bind_opt (find_child "parameter"
              (template name locations init_id transitions parameter decl)) text
    = parameter.
Proof.
  intros Hl Ht.
  split; [now apply locations_of_template|].
  split; [now apply transitions_of_template|].
  split; [now apply init_ref_template|].
  unfold find_child, findall, template; cbn [children].
  rewrite !filter_app.
  rewrite (filter_tag_none "name" "location" locations) by (discriminate || assumption).
  rewrite (filter_tag_none "name" "transition" transitions)
    by (discriminate || assumption).
  rewrite (filter_tag_none "parameter" "location" locations)
    by (discriminate || assumption).
  rewrite (filter_tag_none "parameter" "transition" transitions)
    by (discriminate || assumption).
  destruct parameter, decl; split; reflexivity.
Qed.

Lemma template_read_back_witness :
  all_locations [location 7 0 0 None None false] /\
  all_transitions [transition 7 7 0 0 None None None] /\
  locations_of (template "T" [location 7 0 0 None None false] 7
                  [transition 7 7 0 0 None None None] (Some "int p") (Some "clock t;"))
  = [location 7 0 0 None None false].
Proof.
  assert (Hl : all_locations [location 7 0 0 None None false])
    by (repeat constructor).
  assert (Ht : all_transitions [transition 7 7 0 0 None None None])
    by (repeat constructor).
  split; [exact Hl|]. split; [exact Ht|].
  exact (proj1 (template_read_back "T" _ 7 _ (Some "int p") (Some "clock t;") Hl Ht)).
Defined.

(** ** Queries *)

(** On the empty list [queries] returns the empty element in every
    namespace; where the name [UppaalFactory] denotes the class it returns,
    for every list, the element with one [query] per formula, in the order
    of the list, whose formulas read back as the list; where the name is
    unbound it raises [NameError] on every non-empty list. *)
Theorem queries_read_back (G : globals) (qs : list string) :
  queries G [] = Ok (mkElement "queries" [] None []) /\
  (G "UppaalFactory" = Some Class_UFactory ->
   exists e, queries G qs = Ok e /\
     e = mkElement "queries" [] None (map __query qs) /\
     formulas_of e = map Some qs /\
     List.length (children e) = List.length qs) /\
  (G "UppaalFactory" = None -> qs <> [] -> queries G qs = Raise NameError).
Proof.
  split; [reflexivity|]. split.
  - intros Hb. exists (mkElement "queries" [] None (map __query qs)).
    split; [|split; [reflexivity|split]].
    + unfold queries. rewrite (for_each_collect _ _ __query).
      * reflexivity.
      * intros q acc _. now rewrite (load_query G Hb).
    + unfold formulas_of, findall. cbn [children].
      rewrite filter_tag_all by (apply Forall_forall; intros x Hx;
        apply in_map_iff in Hx as (q & <- & _); reflexivity).
      rewrite map_map. reflexivity.
    + cbn [children]. apply length_map.
  - intros Hnone Hne. destruct qs as [|q qs']; [contradiction|].
    unfold queries, load_method. cbn [for_each bind]. now rewrite Hnone.
Qed.

(** ** The linear chains, further *)

Lemma seq_offset (k n : nat) : seq k n = map (fun i => (k + i)%nat) (seq 0 n).
Proof.
  revert k. induction n as [|n IH]; intros k; [reflexivity|].
  cbn [seq map]. rewrite Nat.add_0_r. f_equal.
  rewrite (IH (S k)), (IH 1%nat), map_map. apply map_ext. intros i. lia.
Qed.

Section BoundChains.

Variable G : globals.
Hypothesis G_bound : G "UppaalFactory" = Some Class_UFactory.

(** The strict call as the main chain followed by the strict loop. *)
Lemma linear_chain_strict_loop tail_name sy name signals base :
  linear_chain G tail_name sy name signals base true =
  st <- for_each (range (List.length signals))
          (strict_body G signals base sy)
          (map (chain_location signals base) (range (List.length signals))
           ++ [tail_location tail_name signals base],
           map (chain_transition signals base) (range (List.length signals))) ;;
  Ok (template name (fst st) base (snd st) None None).
Proof.
  unfold linear_chain.
  rewrite (chain_locations_loop G G_bound), (chain_transitions_loop G G_bound).
  rewrite (load_location G G_bound). cbn [bind app].
  destruct (for_each _ _ _); cbn [bind]; [|reflexivity].
  now rewrite (load_template G G_bound).
Qed.

Lemma strict_loop_stuck signals base sy i :
  ((i < List.length signals)%nat /\ inv (obs signals i) = None) \/
  ((i + 1 < List.length signals)%nat /\ guard (obs signals i) = None) ->
  forall st, exists e,
    for_each (range (List.length signals)) (strict_body G signals base sy) st
    = Raise e.
Proof.
  intros [[Hi Hnone]|[Hi Hnone]].
  - apply for_each_stuck with (x := i); [now apply in_range|].
    intros st. now apply (strict_body_stuck_inv G G_bound).
  - apply for_each_stuck with (x := (i + 1)%nat); [now apply in_range|].
    intros st. now apply (strict_body_stuck_guard G G_bound).
Qed.

Lemma linear_chain_returns_ready tail_name sy name signals base t :
  linear_chain G tail_name sy name signals base true = Ok t ->
  strict_ready signals.
Proof.
  rewrite linear_chain_strict_loop. intros H i Hi. split.
  - intros Hnone.
    match type of H with
    | context [for_each ?xs ?b ?st] =>
        destruct (strict_loop_stuck signals base sy i
                    (or_introl (conj Hi Hnone)) st) as [e He]
    end.
    rewrite He in H. discriminate.
  - intros Hi' Hnone.
    match type of H with
    | context [for_each ?xs ?b ?st] =>
        destruct (strict_loop_stuck signals base sy i
                    (or_intror (conj Hi' Hnone)) st) as [e He]
    end.
    rewrite He in H. discriminate.
Qed.

Lemma linear_chain_fails tail_name sy name signals base :
  ~ strict_ready signals ->
  linear_chain G tail_name sy name signals base true = Raise AttributeError.
Proof.
  intros Hnot. rewrite linear_chain_strict_loop.
  match goal with
  | |- context [for_each ?xs ?b ?st] => destruct (for_each xs b st) as [st'|e] eqn:Hloop
  end; cbn [bind].
  - exfalso. apply Hnot.
    apply (linear_chain_returns_ready tail_name sy name signals base
             (template name (fst st') base (snd st') None None)).
    rewrite linear_chain_strict_loop, Hloop. reflexivity.
  - f_equal. eapply for_each_raises; [|exact Hloop].
    intros i st e' Hi. apply in_range in Hi.
    now apply (strict_body_raises G G_bound).
Qed.

(** The strict synthesis returns a template exactly on the lists in which
    every invariant and every guard but the last is present; on all other
    lists it ends in [AttributeError]. *)
Theorem strict_monitor_returns_iff (name : string) (signals : list observation)
    (base : Z) :
  ((exists t, monitor G name signals base true = Ok t) <-> strict_ready signals) /\
  (~ strict_ready signals ->
   monitor G name signals base true = Raise AttributeError).
Proof.
  split; [split|].
  - intros [t Ht]. now apply (linear_chain_returns_ready "pass" signal name signals base t).
  - intros Hready. unfold monitor.
    rewrite (linear_chain_strict G G_bound _ _ _ _ _ Hready). now eexists.
  - apply linear_chain_fails.
Qed.

Lemma in_id_range (base z : Z) (m : nat) :
  base <= z < base + Z.of_nat m ->
  In (Some (id_ref z))
     (map (fun i => Some (id_ref (base + Z.of_nat i))) (range m)).
Proof.
  intros Hz. apply in_map_iff. exists (Z.to_nat (z - base)). split.
  - do 2 f_equal. lia.
  - apply in_range. lia.
Qed.

(** What [monitor] returns, for either value of [strict]. *)
Lemma monitor_returns name signals base (strict : bool) t :
  monitor G name signals base strict = Ok t ->
  t = template name
        ((map (chain_location signals base) (range (List.length signals))
          ++ [tail_location "pass" signals base])
         ++ (if strict
             then map (fail_location signals base) (range (List.length signals))
             else []))
        base
        (map (chain_transition signals base) (range (List.length signals))
         ++ (if strict
             then map (fail_transition signal signals base)
                    (range (List.length signals))
             else []))
        None None.
Proof.
  unfold monitor. destruct strict; intros H.
  - pose proof (linear_chain_returns_ready _ _ _ _ _ _ H) as Hready.
    rewrite (linear_chain_strict G G_bound _ _ _ _ _ Hready) in H. congruence.
  - rewrite (linear_chain_plain G G_bound) in H. rewrite !app_nil_r. congruence.
Qed.

Lemma monitor_returns_tags (name : string) signals base (strict : bool) :
  all_locations
    ((map (chain_location signals base) (range (List.length signals))
      ++ [tail_location "pass" signals base])
     ++ (if strict
         then map (fail_location signals base) (range (List.length signals))
         else [])) /\
  all_transitions
    (map (chain_transition signals base) (range (List.length signals))
     ++ (if strict
         then map (fail_transition signal signals base)
                (range (List.length signals))
         else [])).
Proof.
  destruct strict.
  - split; [apply strict_all_locations | apply strict_all_transitions].
  - rewrite !app_nil_r.
    split; [apply chain_all_locations | apply chain_all_transitions].
Qed.

Lemma monitor_returns_ids name signals base (strict : bool) t :
  monitor G name signals base strict = Ok t ->
  map location_id_of (locations_of t)
  = map (fun i => Some (id_ref (base + Z.of_nat i)))
      (range (if strict then 2 * List.length signals + 1
              else List.length signals + 1)).
Proof.
  intros H. rewrite (monitor_returns _ _ _ _ _ H).
  destruct (monitor_returns_tags name signals base strict) as [Hl Ht].
  rewrite (locations_of_template _ _ _ _ _ _ Hl Ht).
  rewrite map_app, chain_ids.
  destruct strict.
  - replace (2 * List.length signals + 1)%nat
      with (S (List.length signals) + List.length signals)%nat by lia.
    unfold range. rewrite seq_app, map_app. f_equal.
    rewrite (seq_offset (0 + S (List.length signals))), !map_map.
    apply map_ext. intros i. unfold fail_location.
    rewrite location_id_of_location. do 2 f_equal. unfold len. lia.
  - cbn [map]. rewrite app_nil_r. now rewrite Nat.add_1_r.
Qed.

(** The location ids of a synthesized monitor are the contiguous range
    that starts at [base]: [n + 1] ids for the plain chain, [2 * n + 1]
    for the strict chain; no id is used twice. *)
Theorem monitor_ids_contiguous (name : string) (signals : list observation)
    (base : Z) (strict : bool) (t : Element) :
  monitor G name signals base strict = Ok t ->
  map location_id_of (locations_of t)
    = map (fun i => Some (id_ref (base + Z.of_nat i)))
        (range (if strict then 2 * List.length signals + 1
                else List.length signals + 1)) /\
  NoDup (map location_id_of (locations_of t)).
Proof.
  intros H. rewrite (monitor_returns_ids _ _ _ _ _ H).
  split; [reflexivity | apply id_range_NoDup].
Qed.

(** In a synthesized monitor the init reference and the source and the
    target of every transition are ids of locations of the template. *)
Theorem monitor_references_resolve (name : string) (signals : list observation)
    (base : Z) (strict : bool) (t : Element) :
  monitor G name signals base strict = Ok t ->
  In (init_ref t) (map location_id_of (locations_of t)) /\
  forall tr, In tr (transitions_of t) ->
    In (source_ref tr) (map location_id_of (locations_of t)) /\
    In (target_ref tr) (map location_id_of (locations_of t)).
Proof.
  intros H. rewrite (monitor_returns_ids _ _ _ _ _ H).
  rewrite (monitor_returns _ _ _ _ _ H).
  destruct (monitor_returns_tags name signals base strict) as [Hl Ht].
  rewrite (transitions_of_template _ _ _ _ _ _ Hl Ht),
          (init_ref_template _ _ _ _ _ _ Hl).
  split.
  - apply in_id_range. destruct strict; lia.
  - intros tr Hin. apply in_app_iff in Hin as [Hin|Hin].
    + apply in_map_iff in Hin as (i & <- & Hi). apply in_range in Hi.
      unfold chain_transition.
      rewrite source_ref_transition, target_ref_transition.
      split; apply in_id_range; destruct strict; lia.
    + destruct strict; [|contradiction].
      apply in_map_iff in Hin as (i & <- & Hi). apply in_range in Hi.
      unfold fail_transition.
      rewrite source_ref_transition, target_ref_transition.
      split; apply in_id_range; unfold len; lia.
Qed.

(** In the plain chain, location [i] carries the invariant of
    [signals[i]] and no name, and lies at [(300 * i, 200)]; the tail lies
    at [(300 * n, 200)]; transition [i] has no assignment, and its labels
    are anchored at [x = 300 * i + 100]. *)
Theorem monitor_plain_layout (name : string) (signals : list observation)
    (base : Z) (t : Element) :
  monitor G name signals base false = Ok t ->
  (forall i o, nth_error signals i = Some o ->
     exists l tr,
       nth_error (locations_of t) i = Some l /\
       invariant_of l = inv o /\ name_of l = None /\ committed_of l = false /\
       pos_of l = Some (py_str (300 * Z.of_nat i), py_str 200) /\
       nth_error (transitions_of t) i = Some tr /\
       assignment_of tr = None /\
       bind_opt (find_label "guard" tr) pos_of
         = option_map (fun _ => (py_str (Z.of_nat i * 300 + 100), py_str 200))
             (guard o) /\
       bind_opt (find_label "synchronisation" tr) pos_of
         = option_map (fun _ => (py_str (Z.of_nat i * 300 + 100), py_str 170))
             (signal o)) /\
  exists tail,
    nth_error (locations_of t) (List.length signals) = Some tail /\
    pos_of tail = Some (py_str (300 * len signals), py_str 200).
Proof.
  intros H. rewrite (monitor_returns _ _ _ _ _ H).
  destruct (monitor_returns_tags name signals base false) as [Hl Ht].
  rewrite (locations_of_template _ _ _ _ _ _ Hl Ht),
          (transitions_of_template _ _ _ _ _ _ Hl Ht).
  rewrite !app_nil_r. split.
  - intros i o Hi.
    assert (Hlt : (i < List.length signals)%nat)
      by (apply nth_error_Some; congruence).
    assert (Ho : obs signals i = o)
      by (unfold obs; now apply nth_error_nth).
    assert (Hb : (i <? List.length signals)%nat = true) by now apply Nat.ltb_lt.
    exists (chain_location signals base i), (chain_transition signals base i).
    split.
    { rewrite nth_error_app1
        by (rewrite length_map; unfold range; now rewrite length_seq).
      unfold range. now rewrite nth_error_map, nth_error_seq, Hb. }
    split; [unfold chain_location; rewrite Ho; apply invariant_of_location|].
    split; [unfold chain_location; apply name_of_location|].
    split; [unfold chain_location; now destruct (inv (obs signals i))|].
    split; [reflexivity|].
    split; [unfold range; now rewrite nth_error_map, nth_error_seq, Hb|].
    unfold chain_transition. rewrite Ho.
    destruct (guard o), (signal o); repeat split.
  - exists (tail_location "pass" signals base). split; [|reflexivity].
    rewrite nth_error_app2; rewrite length_map; unfold range; rewrite length_seq;
      [now rewrite Nat.sub_diag | lia].
Qed.

End BoundChains.

(** ** [input] beside [monitor], and the empty list *)

Section BoundInput.

Variable G : globals.
Hypothesis G_bound : G "UppaalFactory" = Some Class_UFactory.

Lemma input_returns name signals base (strict : bool) t :
  input G name signals base strict = Ok t ->
  t = template name
        ((map (chain_location signals base) (range (List.length signals))
          ++ [tail_location "Finish" signals base])
         ++ (if strict
             then map (fail_location signals base) (range (List.length signals))
             else []))
        base
        (map (chain_transition signals base) (range (List.length signals))
         ++ (if strict
             then map (fail_transition (fun _ => None) signals base)
                    (range (List.length signals))
             else []))
        None None.
Proof.
  unfold input. destruct strict; intros H.
  - pose proof (linear_chain_returns_ready G G_bound _ _ _ _ _ _ H) as Hready.
    rewrite (linear_chain_strict G G_bound _ _ _ _ _ Hready) in H. congruence.
  - rewrite (linear_chain_plain G G_bound) in H. rewrite !app_nil_r. congruence.
Qed.

Lemma input_returns_tags (signals : list observation) (base : Z) (strict : bool) :
  all_locations
    ((map (chain_location signals base) (range (List.length signals))
      ++ [tail_location "Finish" signals base])
     ++ (if strict
         then map (fail_location signals base) (range (List.length signals))
         else [])) /\
  all_transitions
    (map (chain_transition signals base) (range (List.length signals))
     ++ (if strict
         then map (fail_transition (fun _ => None) signals base)
                (range (List.length signals))
         else [])).
Proof.
  destruct strict.
  - split; [apply strict_all_locations | apply strict_all_transitions].
  - rewrite !app_nil_r.
    split; [apply chain_all_locations | apply chain_all_transitions].
Qed.

(** [input] raises exactly where [monitor] raises, and the same
    exception. *)
Theorem input_raises_as_monitor (name : string) (signals : list observation)
    (base : Z) (strict : bool) (e : exn) :
  input G name signals base strict = Raise e <->
  monitor G name signals base strict = Raise e.
Proof.
  unfold input, monitor. destruct strict.
  - destruct (linear_chain G "Finish" (fun _ => None) name signals base true)
      as [t|e0] eqn:Hin.
    + pose proof (linear_chain_returns_ready G G_bound _ _ _ _ _ _ Hin) as Hready.
      rewrite (linear_chain_strict G G_bound _ _ _ _ _ Hready).
      split; discriminate.
    + assert (Hnot : ~ strict_ready signals).
      { intros Hready.
        rewrite (linear_chain_strict G G_bound _ _ _ _ _ Hready) in Hin.
        discriminate. }
      rewrite (linear_chain_fails G G_bound _ _ _ _ _ Hnot) in Hin.
      rewrite (linear_chain_fails G G_bound _ _ _ _ _ Hnot).
      injection Hin as <-. reflexivity.
  - rewrite !(linear_chain_plain G G_bound). split; discriminate.
Qed.

(** Where both return, the template of [input] has the locations of the
    template of [monitor], except that its tail is named "Finish"; it has
    the same main transitions; and its trap transitions have the sources,
    targets and guards of those of [monitor] but no synchronisation. *)
Theorem input_versus_monitor (name : string) (signals : list observation)
    (base : Z) (strict : bool) (t_in t_mon : Element) :
  input G name signals base strict = Ok t_in ->
  monitor G name signals base strict = Ok t_mon ->
  (forall i, i <> List.length signals ->
     nth_error (locations_of t_in) i = nth_error (locations_of t_mon) i) /\
  bind_opt (nth_error (locations_of t_in) (List.length signals)) name_of
    = Some "Finish" /\
  bind_opt (nth_error (locations_of t_mon) (List.length signals)) name_of
    = Some "pass" /\
  map location_id_of (locations_of t_in) = map location_id_of (locations_of t_mon) /\
  firstn (List.length signals) (transitions_of t_in)
    = firstn (List.length signals) (transitions_of t_mon) /\
  map (fun tr => (source_ref tr, target_ref tr, guard_of tr)) (transitions_of t_in)
    = map (fun tr => (source_ref tr, target_ref tr, guard_of tr))
        (transitions_of t_mon) /\
  (forall tr, In tr (skipn (List.length signals) (transitions_of t_in)) ->
     sync_of tr = None).
Proof.
  intros Hin Hmon.
  rewrite (input_returns _ _ _ _ _ Hin).
  rewrite (monitor_returns G G_bound _ _ _ _ _ Hmon).
  destruct (input_returns_tags signals base strict) as [Hl Ht].
  destruct (monitor_returns_tags name signals base strict) as [Hl' Ht'].
  rewrite (locations_of_template _ _ _ _ _ _ Hl Ht),
          (transitions_of_template _ _ _ _ _ _ Hl Ht),
          (locations_of_template _ _ _ _ _ _ Hl' Ht'),
          (transitions_of_template _ _ _ _ _ _ Hl' Ht').
  assert (Hn : List.length
                 (map (chain_location signals base) (range (List.length signals)))
               = List.length signals)
    by (rewrite length_map; unfold range; apply length_seq).
  assert (Hnt : List.length
                  (map (chain_transition signals base) (range (List.length signals)))
                = List.length signals)
    by (rewrite length_map; unfold range; apply length_seq).
  rewrite <- !app_assoc.
  split; [|split; [|split; [|split; [|split; [|split]]]]].
  - intros i Hi.
    destruct (Nat.lt_ge_cases i (List.length signals)) as [Hlt|Hge].
    + now rewrite !nth_error_app1 by (rewrite Hn; exact Hlt).
    + rewrite !(nth_error_app2 (map (chain_location signals base) _))
        by (rewrite Hn; exact Hge).
      rewrite Hn. destruct (i - List.length signals)%nat as [|k] eqn:Hk; [lia|].
      reflexivity.
  - rewrite nth_error_app2 by (rewrite Hn; lia).
    now rewrite Hn, Nat.sub_diag.
  - rewrite nth_error_app2 by (rewrite Hn; lia).
    now rewrite Hn, Nat.sub_diag.
  - now rewrite !map_app.
  - now rewrite !(firstn_exact _ _ _ Hnt).
  - rewrite !map_app. f_equal. destruct strict; [|reflexivity].
    rewrite !map_map. apply map_ext. intros i. unfold fail_transition.
    now rewrite !source_ref_transition, !target_ref_transition, !guard_of_transition.
  - rewrite (skipn_exact _ _ _ Hnt). intros tr Htr.
    destruct strict; [|contradiction].
    apply in_map_iff in Htr as (i & <- & _). unfold fail_transition.
    apply sync_of_transition.
Qed.

(** On the empty signal list the three monitors return the one-location
    template whose only location is the tail, at the base id, whatever
    [strict] and the alphabet are; [input] returns it with the tail named
    "Finish". *)
Theorem synthesizers_on_empty (name : string) (base : Z) (strict : bool)
    (d : list (string * string)) :
  monitor G name [] base strict
    = Ok (template name [location base 0 200 None (Some "pass") false]
            base [] None None) /\
  strict_monitor G name [] base = monitor G name [] base strict /\
  monitor_allpatterns G name [] base d = monitor G name [] base strict /\
  input G name [] base strict
    = Ok (template name [location base 0 200 None (Some "Finish") false]
            base [] None None).
Proof.
  assert (Hmon : forall s, monitor G name [] base s
    = Ok (template name [location base 0 200 None (Some "pass") false]
            base [] None None)).
  { intros s. unfold monitor, linear_chain. cbn [List.length range seq for_each bind].
    rewrite (load_location G G_bound). cbn [bind].
    destruct s; cbn [for_each bind]; rewrite (load_template G G_bound);
      cbn [bind fst snd app len List.length Z.of_nat];
      now rewrite Z.add_0_r. }
  split; [apply Hmon|]. split; [|split].
  - rewrite (strict_monitor_monitor G G_bound). now rewrite !Hmon.
  - rewrite Hmon. unfold monitor_allpatterns.
    cbn [List.length range seq for_each bind].
    rewrite (load_location G G_bound), (load_template G G_bound).
    cbn [bind app len List.length Z.of_nat]. now rewrite Z.add_0_r.
  - unfold input, linear_chain. cbn [List.length range seq for_each bind].
    rewrite (load_location G G_bound). cbn [bind].
    destruct strict; cbn [for_each bind]; rewrite (load_template G G_bound);
      cbn [bind fst snd app len List.length Z.of_nat];
      now rewrite Z.add_0_r.
Qed.

End BoundInput.

(** ** The all-patterns chain, further *)

Lemma in_combine_seq {A : Type} (v : A) (l : list A) (s : nat) :
  In v l -> exists j, In (j, v) (combine (seq s (List.length l)) l).
Proof.
  revert s. induction l as [|x l IH]; intros s Hin; [contradiction|].
  cbn [List.length seq combine]. destruct Hin as [->|Hin].
  - exists s. now left.
  - destruct (IH (S s) Hin) as [j Hj]. exists j. now right.
Qed.

Lemma map_fst_combine_seq {A : Type} (l : list A) (s : nat) :
  map fst (combine (seq s (List.length l)) l) = seq s (List.length l).
Proof.
  revert s. induction l as [|x l IH]; intros s; [reflexivity|].
  cbn [List.length seq combine map fst]. now rewrite IH.
Qed.

Lemma NoDup_app_disjoint {A : Type} (l l' : list A) (a : A) :
  NoDup (l ++ l') -> In a l -> In a l' -> False.
Proof.
  induction l as [|x l IH]; intros Hnd Hl Hl'; [contradiction|].
  cbn in Hnd. inversion_clear Hnd as [|? ? Hx Hrest].
  destruct Hl as [->|Hl].
  - apply Hx, in_or_app. now right.
  - now apply IH.
Qed.

Lemma obs_untimed (signals : list observation) (i : nat) :
  obs (untimed signals) i
  = mkObservation (signal (obs signals i)) None None.
Proof.
  unfold obs, untimed.
  exact (map_nth (fun o => mkObservation (signal o) None None)
           signals no_observation i).
Qed.

Section BoundPatternsMore.

Variable G : globals.
Hypothesis G_bound : G "UppaalFactory" = Some Class_UFactory.

Lemma allpatterns_returns name signals base d t :
  monitor_allpatterns G name signals base d = Ok t ->
  locations_of t
    = (map (bare_location base) (range (List.length signals))
       ++ [tail_location "pass" signals base])
      ++ flat_map (pattern_locations signals base d) (range (List.length signals)) /\
  transitions_of t
    = map (bare_transition signals base) (range (List.length signals))
      ++ flat_map (pattern_transitions signals base d) (range (List.length signals)) /\
  init_ref t = Some (id_ref base).
Proof.
  rewrite (monitor_allpatterns_eq G G_bound). intros [= <-].
  pose proof (patterns_all_locations signals base d) as Hl.
  pose proof (patterns_all_transitions signals base d) as Ht.
  rewrite (locations_of_template _ _ _ _ _ _ Hl Ht),
          (transitions_of_template _ _ _ _ _ _ Hl Ht),
          (init_ref_template _ _ _ _ _ _ Hl).
  auto.
Qed.

Lemma bare_transitions_length signals base :
  List.length (map (bare_transition signals base) (range (List.length signals)))
  = List.length signals.
Proof.
  rewrite length_map. unfold range. apply length_seq.
Qed.

(** The trap transitions of the all-patterns template, in order: for each
    location [i] in turn and each non-matching alphabet value in the
    order of the alphabet, one transition from [base + i] to the trap of
    that entry, without guard, synchronised on the value with its send
    marker turned into the receive marker.  The trap transitions target
    the trap locations one for one, in the same order. *)
Theorem allpatterns_trap_transitions (name : string) (signals : list observation)
    (base : Z) (d : list (string * string)) (t : Element) :
  monitor_allpatterns G name signals base d = Ok t ->
  map edge_of (skipn (List.length signals) (transitions_of t))
    = flat_map (fun i =>
        map (fun jv =>
               (Some (id_ref (base + Z.of_nat i)),
                Some (id_ref (trap_id base (List.length signals) (List.length d)
                                i (fst jv))),
                None,
                Some (str_replace "!" "?" (snd jv))))
          (combine (seq 0 (List.length (mismatches (obs signals i) d)))
             (mismatches (obs signals i) d)))
        (range (List.length signals)) /\
  map target_ref (skipn (List.length signals) (transitions_of t))
    = map location_id_of (trap_locations_of (List.length signals) t) /\
  List.length (transitions_of t)
    = (List.length signals
       + List.length (trap_locations_of (List.length signals) t))%nat.
Proof.
  intros H. destruct (allpatterns_returns _ _ _ _ _ H) as (Hlocs & Htrs & _).
  unfold trap_locations_of. rewrite Hlocs, Htrs.
  rewrite (skipn_exact _ _ _ (bare_transitions_length signals base)),
          (skipn_exact _ _ _ (patterns_main_length signals base)).
  assert (Htargets :
    map target_ref
      (flat_map (pattern_transitions signals base d) (range (List.length signals)))
    = map location_id_of
        (flat_map (pattern_locations signals base d) (range (List.length signals)))).
  { rewrite !map_flat_map. apply flat_map_ext. intros i.
    unfold pattern_transitions, pattern_locations. rewrite !map_map.
    rewrite <- (map_fst_combine_seq (mismatches (obs signals i) d) 0) at 2.
    rewrite map_map. apply map_ext. intros [j v]. reflexivity. }
  split; [|split].
  - rewrite map_flat_map. apply flat_map_ext. intros i.
    unfold pattern_transitions. rewrite map_map. apply map_ext. intros [j v].
    reflexivity.
  - exact Htargets.
  - rewrite length_app, bare_transitions_length. f_equal.
    rewrite <- (length_map target_ref), Htargets. apply length_map.
Qed.

(** In the all-patterns template the init reference and the source and
    the target of every transition are ids of locations of the template,
    whatever the alphabet is. *)
Theorem allpatterns_references_resolve (name : string)
    (signals : list observation) (base : Z) (d : list (string * string))
    (t : Element) :
  monitor_allpatterns G name signals base d = Ok t ->
  In (init_ref t) (map location_id_of (locations_of t)) /\
  forall tr, In tr (transitions_of t) ->
    In (source_ref tr) (map location_id_of (locations_of t)) /\
    In (target_ref tr) (map location_id_of (locations_of t)).
Proof.
  intros H. destruct (allpatterns_returns _ _ _ _ _ H) as (Hlocs & Htrs & Hinit).
  rewrite Hlocs, Htrs, Hinit, map_app.
  rewrite patterns_main_ids, patterns_trap_ids.
  assert (Hmain : forall z, base <= z <= base + len signals ->
            In (Some (id_ref z))
               (map (fun z => Some (id_ref z)) (main_ids signals base)
                ++ map (fun z => Some (id_ref z)) (trap_ids signals base d))).
  { intros z Hz. apply in_or_app. left.
    apply (in_map (fun z => Some (id_ref z))). unfold main_ids.
    apply in_map_iff. exists (Z.to_nat (z - base)). split; [lia|].
    apply in_range. unfold len in Hz. lia. }
  split; [apply Hmain; unfold len; lia|].
  intros tr Hin. apply in_app_iff in Hin as [Hin|Hin].
  - apply in_map_iff in Hin as (i & <- & Hi). apply in_range in Hi.
    unfold bare_transition. rewrite source_ref_transition, target_ref_transition.
    split; apply Hmain; unfold len; lia.
  - apply in_flat_map in Hin as (i & Hi & Hin). pose proof Hi as Hi'.
    apply in_range in Hi'.
    apply in_map_iff in Hin as ([j v] & <- & Hjv).
    unfold pattern_transition. rewrite source_ref_transition, target_ref_transition.
    split; [apply Hmain; unfold len; lia|].
    apply in_or_app. right.
    apply (in_map (fun z => Some (id_ref z))). unfold trap_ids.
    apply in_flat_map. exists i. split; [exact Hi|].
    apply in_map. cbn [fst].
    apply in_combine_l in Hjv. exact Hjv.
Qed.

(** Every location of the main chain but the tail reacts to every signal
    of the alphabet: for each alphabet value there is a transition that
    leaves the location and is synchronised on the value with its send
    marker turned into the receive marker. *)
Theorem allpatterns_complete (name : string) (signals : list observation)
    (base : Z) (d : list (string * string)) (t : Element) :
  monitor_allpatterns G name signals base d = Ok t ->
  forall i value, (i < List.length signals)%nat -> In value (values d) ->
    exists tr, In tr (transitions_of t) /\
      source_ref tr = Some (id_ref (base + Z.of_nat i)) /\
      sync_of tr = Some (str_replace "!" "?" value).
Proof.
  intros H i value Hi Hv.
  destruct (allpatterns_returns _ _ _ _ _ H) as (_ & Htrs & _). rewrite Htrs.
  destruct (py_ne (signal (obs signals i)) (str_replace "!" "?" value)) eqn:Hne.
  - assert (Hm : In value (mismatches (obs signals i) d))
      by (unfold mismatches; apply filter_In; now split).
    destruct (in_combine_seq _ _ 0 Hm) as [j Hj].
    exists (pattern_transition base (List.length signals) (List.length d) i (j, value)).
    split.
    + apply in_or_app. right. apply in_flat_map. exists i.
      split; [now apply in_range|].
      unfold pattern_transitions. now apply in_map.
    + unfold pattern_transition.
      now rewrite source_ref_transition, sync_of_transition.
  - exists (bare_transition signals base i). split.
    + apply in_or_app. left. apply in_map. now apply in_range.
    + unfold bare_transition. rewrite source_ref_transition, sync_of_transition.
      split; [reflexivity|].
      unfold py_ne in Hne. destruct (signal (obs signals i)) as [s|]; [|discriminate].
      apply negb_false_iff, String.eqb_eq in Hne. now subst s.
Qed.

Lemma flat_map_nil {A B : Type} (f : A -> list B) (xs : list A) :
  (forall x, f x = []) -> flat_map f xs = [].
Proof.
  intros H. induction xs as [|x xs IH]; cbn; [reflexivity|].
  now rewrite H, IH.
Qed.

(** [monitor_allpatterns] reads nothing but the signal of an observation:
    it returns the same on the list with every guard and invariant erased;
    and with the empty alphabet it returns what the plain [monitor]
    returns on that erased list. *)
Theorem allpatterns_ignores_timing (name : string) (signals : list observation)
    (base : Z) (d : list (string * string)) :
  monitor_allpatterns G name signals base d
    = monitor_allpatterns G name (untimed signals) base d /\
  monitor_allpatterns G name signals base []
    = monitor G name (untimed signals) base false.
Proof.
  assert (Hlen : List.length (untimed signals) = List.length signals)
    by (unfold untimed; apply length_map).
  assert (Htail : forall nm, tail_location nm (untimed signals) base
                             = tail_location nm signals base).
  { intros nm. unfold tail_location, len. now rewrite Hlen. }
  split.
  - rewrite !(monitor_allpatterns_eq G G_bound). rewrite Hlen, Htail.
    do 2 f_equal.
    + f_equal. apply flat_map_ext. intros i. unfold pattern_locations.
      rewrite Hlen, obs_untimed. reflexivity.
    + f_equal.
      * apply map_ext. intros i. unfold bare_transition.
        now rewrite obs_untimed.
      * apply flat_map_ext. intros i. unfold pattern_transitions.
        rewrite Hlen, obs_untimed. reflexivity.
  - rewrite (monitor_allpatterns_eq G G_bound). unfold monitor.
    rewrite (linear_chain_plain G G_bound). rewrite Hlen, Htail.
    rewrite !flat_map_nil by reflexivity. rewrite !app_nil_r.
    do 2 f_equal.
    + f_equal. apply map_ext. intros i. unfold chain_location, bare_location.
      now rewrite obs_untimed.
    + apply map_ext. intros i. unfold chain_transition, bare_transition.
      now rewrite obs_untimed.
Qed.

(** The traps of location [i] lie below it, at [x = 300 * i] and at
    [y = 500 + 100 * j] for the [j]-th of them, and have no name. *)
Theorem allpatterns_trap_layout (name : string) (signals : list observation)
    (base : Z) (d : list (string * string)) (t : Element) :
  monitor_allpatterns G name signals base d = Ok t ->
  map pos_of (trap_locations_of (List.length signals) t)
    = flat_map (fun i =>
        map (fun j => Some (py_str (300 * Z.of_nat i),
                            py_str (500 + 100 * Z.of_nat j)))
          (seq 0 (List.length (mismatches (obs signals i) d))))
        (range (List.length signals)) /\
  (forall l, In l (trap_locations_of (List.length signals) t) -> name_of l = None).
Proof.
  intros H. destruct (allpatterns_returns _ _ _ _ _ H) as (Hlocs & _ & _).
  unfold trap_locations_of. rewrite Hlocs.
  rewrite (skipn_exact _ _ _ (patterns_main_length signals base)).
  split.
  - rewrite map_flat_map. apply flat_map_ext. intros i.
    unfold pattern_locations. now rewrite map_map.
  - intros l Hin. apply in_flat_map in Hin as (i & _ & Hin).
    apply in_map_iff in Hin as (j & <- & _). reflexivity.
Qed.

(** Where a location of the chain, other than the last, expects a signal
    that matches no alphabet value, and the next location has a
    non-matching value, the template contains two trap locations with the
    same id: the last trap of the first one and the first trap of the
    next. *)
Theorem allpatterns_collision (name : string) (signals : list observation)
    (base : Z) (d : list (string * string)) (t : Element) (i : nat) :
  monitor_allpatterns G name signals base d = Ok t ->
  (i + 1 < List.length signals)%nat ->
  List.length (mismatches (obs signals i) d) = List.length d ->
  mismatches (obs signals (i + 1)) d <> [] ->
  ~ NoDup (map location_id_of (locations_of t)).
Proof.
  intros H Hi Hall Hnext Hnd.
  destruct (allpatterns_returns _ _ _ _ _ H) as (Hlocs & _ & _).
  rewrite Hlocs, map_app, patterns_trap_ids in Hnd.
  apply NoDup_app_remove_l, NoDup_map_inv in Hnd.
  assert (Hk : (1 <= List.length d)%nat).
  { pose proof (mismatches_le (obs signals (i + 1)) d).
    destruct (mismatches (obs signals (i + 1)) d); [contradiction|cbn in *; lia]. }
  assert (Hm : (1 <= List.length (mismatches (obs signals (i + 1)) d))%nat).
  { destruct (mismatches (obs signals (i + 1)) d); [contradiction|cbn; lia]. }
  assert (Hsplit : seq 0 (List.length signals)
                   = seq 0 i ++ i :: S i :: seq (S (S i)) (List.length signals - i - 2)).
  { replace (List.length signals)
      with (i + (2 + (List.length signals - i - 2)))%nat at 1 by lia.
    now rewrite seq_app. }
  unfold trap_ids, range in Hnd. rewrite Hsplit, flat_map_app in Hnd.
  apply NoDup_app_remove_l in Hnd.
  cbn [flat_map] in Hnd.
  apply (NoDup_app_disjoint _ _
           (trap_id base (List.length signals) (List.length d) i
              (List.length d - 1)) Hnd).
  - apply in_map. apply in_seq. rewrite Hall. lia.
  - apply in_or_app. left. replace (S i) with (i + 1)%nat by lia.
    apply in_map_iff. exists 0%nat. split.
    + unfold trap_id. nia.
    + apply in_seq. lia.
Qed.

End BoundPatternsMore.

(** ** Text replacement *)

(** A text that does not contain [old] is returned as it is. *)
Theorem str_replace_absent (a : ascii) (old new s : string) :
  str_contains (String a old) s = false ->
  str_replace (String a old) new s = s.
Proof.
  unfold str_replace. induction s as [|c s IH]; intros H; [reflexivity|].
  cbn [str_contains] in H. apply orb_false_iff in H as [Hp Hs].
  rewrite str_replace_from_scan, Hp. now rewrite IH.
Qed.

(** The first bound of a constraint is tightened and the scan goes on
    behind it, so that every non-strict bound of a conjunction is
    tightened, each with its operands kept. *)
Theorem str_replace_each_bound (a : ascii) (x c : string) :
  has_char a x = false ->
  str_replace (String a "=") (String a "") (x ++ String a (String "=" c))
  = (x ++ String a (str_replace (String a "=") (String a "") c))%string.
Proof.
  intros Hx. unfold str_replace.
  induction x as [|y x IH]; cbn [String.append].
  - rewrite str_replace_from_scan, prefix_comparator.
    cbn [String.length Nat.sub]. now rewrite str_replace_from_skip.
  - apply has_char_cons in Hx as [Hne Hx].
    rewrite str_replace_from_scan, (prefix_other _ _ _ _ Hne). now rewrite IH.
Qed.

(** ** The namespace *)

Lemma load_unbound (G : globals) (name attr : string) :
  G name = None -> load_method G name attr = Raise NameError.
Proof.
  intros H. unfold load_method. now rewrite H.
Qed.

(** In a namespace where [UppaalFactory] denotes the class, the plain
    [monitor] and [monitor_allpatterns] return a template on every input;
    in a namespace without the name, [monitor], [strict_monitor], [input]
    and [monitor_allpatterns] raise [NameError] on every input. *)
Theorem synthesizers_need_the_name (G : globals) (name : string)
    (signals : list observation) (base : Z) (d : list (string * string)) :
  (G "UppaalFactory" = Some Class_UFactory ->
   (exists t, monitor G name signals base false = Ok t) /\
   (exists t, monitor_allpatterns G name signals base d = Ok t)) /\
  (G "UppaalFactory" = None ->
   forall strict,
     monitor G name signals base strict = Raise NameError /\
     strict_monitor G name signals base = Raise NameError /\
     input G name signals base strict = Raise NameError /\
     monitor_allpatterns G name signals base d = Raise NameError).
Proof.
  split.
  - intros Hb. split.
    + unfold monitor. rewrite (linear_chain_plain G Hb). now eexists.
    + rewrite (monitor_allpatterns_eq G Hb). now eexists.
  - intros Hnone strict.
    unfold strict_monitor, monitor, input, linear_chain, monitor_allpatterns.
    destruct signals as [|o signals'];
      cbn [List.length range seq for_each bind];
      rewrite !(load_unbound G _ _ Hnone); auto.
Qed.

(** ** Instances of the further properties *)

Lemma strict_monitor_returns_iff_witness :
  aliased_globals "UppaalFactory" = Some Class_UFactory /\
  strict_ready two_signals /\
  exists t, monitor aliased_globals "Monitor" two_signals 1 true = Ok t.
Proof.
  split; [reflexivity|]. split; [exact two_signals_ready|].
  exact (proj2 (proj1 (strict_monitor_returns_iff aliased_globals aliased_bound
                         "Monitor" two_signals 1)) two_signals_ready).
Defined.

Lemma monitor_ids_contiguous_witness :
  exists t, monitor aliased_globals "Monitor" two_signals 1 true = Ok t /\
    NoDup (map location_id_of (locations_of t)).
Proof.
  eexists. split; [vm_compute; reflexivity|].
  apply (monitor_ids_contiguous aliased_globals aliased_bound
           "Monitor" two_signals 1 true).
  vm_compute; reflexivity.
Defined.

Lemma monitor_references_resolve_witness :
  exists t, monitor aliased_globals "Monitor" two_signals 1 true = Ok t /\
    In (init_ref t) (map location_id_of (locations_of t)).
Proof.
  eexists. split; [vm_compute; reflexivity|].
  apply (monitor_references_resolve aliased_globals aliased_bound
           "Monitor" two_signals 1 true).
  vm_compute; reflexivity.
Defined.

Lemma monitor_plain_layout_witness :
  exists t, monitor aliased_globals "Monitor" two_signals 1 false = Ok t /\
    exists tail, nth_error (locations_of t) 2 = Some tail /\
      pos_of tail = Some (py_str (300 * len two_signals), py_str 200).
Proof.
  eexists. split; [vm_compute; reflexivity|].
  apply (monitor_plain_layout aliased_globals aliased_bound
           "Monitor" two_signals 1).
  vm_compute; reflexivity.
Defined.

Lemma input_raises_as_monitor_witness :
  input aliased_globals "Input" untimed_second 1 true = Raise AttributeError /\
  monitor aliased_globals "Input" untimed_second 1 true = Raise AttributeError.
Proof.
  assert (H : input aliased_globals "Input" untimed_second 1 true
              = Raise AttributeError) by (vm_compute; reflexivity).
  split; [exact H|].
  exact (proj1 (input_raises_as_monitor aliased_globals aliased_bound
                  "Input" untimed_second 1 true AttributeError) H).
Defined.

Lemma input_versus_monitor_witness :
  exists t_in t_mon,
    input aliased_globals "Monitor" two_signals 1 true = Ok t_in /\
    monitor aliased_globals "Monitor" two_signals 1 true = Ok t_mon /\
    map location_id_of (locations_of t_in) = map location_id_of (locations_of t_mon).
Proof.
  do 2 eexists. split; [vm_compute; reflexivity|].
  split; [vm_compute; reflexivity|].
  apply (input_versus_monitor aliased_globals aliased_bound
           "Monitor" two_signals 1 true); vm_compute; reflexivity.
Defined.

Lemma synthesizers_on_empty_witness :
  monitor_allpatterns aliased_globals "Monitor" [] 5 exact_alphabet
  = monitor aliased_globals "Monitor" [] 5 true.
Proof.
  exact (proj1 (proj2 (proj2 (synthesizers_on_empty aliased_globals aliased_bound
                                "Monitor" 5 true exact_alphabet)))).
Defined.

Lemma allpatterns_trap_transitions_witness :
  exists t,
    monitor_allpatterns aliased_globals "Monitor" two_signals 1 exact_alphabet = Ok t /\
    map target_ref (skipn 2 (transitions_of t))
    = map location_id_of (trap_locations_of 2 t).
Proof.
  eexists. split; [vm_compute; reflexivity|].
  apply (allpatterns_trap_transitions aliased_globals aliased_bound
           "Monitor" two_signals 1 exact_alphabet).
  vm_compute; reflexivity.
Defined.

Lemma allpatterns_references_resolve_witness :
  exists t,
    monitor_allpatterns aliased_globals "Monitor" two_signals 1 foreign_alphabet
      = Ok t /\
    In (init_ref t) (map location_id_of (locations_of t)).
Proof.
  eexists. split; [vm_compute; reflexivity|].
  apply (allpatterns_references_resolve aliased_globals aliased_bound
           "Monitor" two_signals 1 foreign_alphabet).
  vm_compute; reflexivity.
Defined.

Lemma allpatterns_complete_witness :
  exists t,
    monitor_allpatterns aliased_globals "Monitor" two_signals 1 exact_alphabet = Ok t /\
    exists tr, In tr (transitions_of t) /\
      source_ref tr = Some (id_ref (1 + Z.of_nat 1)) /\
      sync_of tr = Some (str_replace "!" "?" "sigA!").
Proof.
  eexists. split; [vm_compute; reflexivity|].
  apply (allpatterns_complete aliased_globals aliased_bound
           "Monitor" two_signals 1 exact_alphabet).
  - vm_compute; reflexivity.
  - cbn. lia.
  - cbn. now left.
Defined.

Lemma allpatterns_ignores_timing_witness :
  monitor_allpatterns aliased_globals "Monitor" two_signals 1 []
  = monitor aliased_globals "Monitor" (untimed two_signals) 1 false.
Proof.
  exact (proj2 (allpatterns_ignores_timing aliased_globals aliased_bound
                  "Monitor" two_signals 1 exact_alphabet)).
Defined.

Lemma allpatterns_trap_layout_witness :
  exists t,
    monitor_allpatterns aliased_globals "Monitor" two_signals 1 exact_alphabet = Ok t /\
    (forall l, In l (trap_locations_of 2 t) -> name_of l = None).
Proof.
  eexists. split; [vm_compute; reflexivity|].
  apply (allpatterns_trap_layout aliased_globals aliased_bound
           "Monitor" two_signals 1 exact_alphabet).
  vm_compute; reflexivity.
Defined.

Lemma allpatterns_collision_witness :
  exists t,
    monitor_allpatterns aliased_globals "Monitor" two_signals 1 foreign_alphabet
      = Ok t /\
    ~ NoDup (map location_id_of (locations_of t)).
Proof.
  eexists. split; [vm_compute; reflexivity|].
  apply (allpatterns_collision aliased_globals aliased_bound
           "Monitor" two_signals 1 foreign_alphabet _ 0).
  - vm_compute; reflexivity.
  - cbn. lia.
  - reflexivity.
  - discriminate.
Defined.

Lemma str_replace_absent_witness :
  str_contains "<=" "gclk<10" = false /\
  str_replace "<=" "<" "gclk<10" = "gclk<10".
Proof.
  split; [reflexivity|].
  apply (str_replace_absent "<" "=" "<" "gclk<10"). reflexivity.
Defined.

Lemma str_replace_each_bound_witness :
  has_char "<" "x" = false /\
  str_replace "<=" "<" ("x" ++ "<=" ++ "5 && y<=7")
  = ("x" ++ "<" ++ str_replace "<=" "<" "5 && y<=7")%string.
Proof.
  split; [reflexivity|].
  apply (str_replace_each_bound "<" "x" "5 && y<=7"). reflexivity.
Defined.

Lemma queries_read_back_witness :
  aliased_globals "UppaalFactory" = Some Class_UFactory /\
  exists e, queries aliased_globals ["E<> Output.pass"; "A[] not deadlock"] = Ok e /\
    formulas_of e = [Some "E<> Output.pass"; Some "A[] not deadlock"].
Proof.
  split; [reflexivity|].
  destruct (proj1 (proj2 (queries_read_back aliased_globals
                            ["E<> Output.pass"; "A[] not deadlock"]))
              aliased_bound) as (e & Hrun & _ & Hf & _).
  exists e. split; assumption.
Defined.

(** * The synthesizers of the module as it is written *)

(** In [module_globals] the first statement every synthesizer reaches
    looks [UppaalFactory] up and raises. *)
Lemma monitor_as_written (name : string) (signals : list observation)
    (base : Z) (strict : bool) :
  monitor module_globals name signals base strict = Raise NameError.
Proof. destruct signals; reflexivity. Qed.

Lemma strict_monitor_as_written (name : string) (signals : list observation)
    (base : Z) :
  strict_monitor module_globals name signals base = Raise NameError.
Proof. reflexivity. Qed.


(** C1: the plain chain of the module as written returns no template:
    on every signal list, base id and name, [monitor] with [strict=False]
    raises [NameError]; so it does on the two-signal list at base 1, where
    a template of three locations is expected, and on the empty list. *)
Theorem monitor_plain_shape_as_written :
  (forall name signals base,
     monitor module_globals name signals base false = Raise NameError) /\
  (forall name signals base,
     ~ exists t, monitor module_globals name signals base false = Ok t /\
         List.length (locations_of t) = S (List.length signals)) /\
  monitor module_globals "Monitor" two_signals 1 false = Raise NameError /\
  monitor module_globals "Monitor" [] 1 false = Raise NameError.
Proof.
  split; [intros; apply monitor_as_written|].
  split; [|split; reflexivity].
  intros name signals base (t & H & _). rewrite monitor_as_written in H.
  discriminate.
Qed.

(** C2: the plain chain of the module as written builds no transition:
    no call of [monitor] with [strict=False] returns a template, so none
    returns one whose transitions form the path from [base] to
    [base + n]; the call on the two-signal list at base 1 raises
    [NameError]. *)
Theorem monitor_plain_path_as_written :
  (forall name signals base,
     ~ exists t, monitor module_globals name signals base false = Ok t /\
         List.length (transitions_of t) = List.length signals) /\
  (forall name signals base i,
     (i < List.length signals)%nat ->
     ~ exists t tr, monitor module_globals name signals base false = Ok t /\
         nth_error (transitions_of t) i = Some tr /\
         source_ref tr = Some (id_ref (base + Z.of_nat i))) /\
  monitor module_globals "Monitor" two_signals 1 false = Raise NameError.
Proof.
  split; [|split; [|reflexivity]].
  - intros name signals base (t & H & _).
    rewrite monitor_as_written in H. discriminate.
  - intros name signals base i _ (t & tr & H & _).
    rewrite monitor_as_written in H. discriminate.
Qed.

(** C3: the strict chain of the module as written adds no trap:
    [strict_monitor], and [monitor] with [strict=True], raise [NameError]
    on every input; on the two-signal list at base 1 no template with the
    trap locations 4 and 5 is returned. *)
Theorem strict_monitor_traps_as_written :
  (forall name signals base,
     strict_monitor module_globals name signals base = Raise NameError /\
     monitor module_globals name signals base true = Raise NameError) /\
  strict_monitor module_globals "Monitor" two_signals 1 = Raise NameError /\
  (~ exists t l,
       strict_monitor module_globals "Monitor" two_signals 1 = Ok t /\
       In l (locations_of t) /\ location_id_of l = Some (id_ref 4)).
Proof.
  split; [|split; [reflexivity|]].
  - intros. split; [apply strict_monitor_as_written | apply monitor_as_written].
  - intros (t & l & H & _). discriminate.
Qed.

(** C8: the strict chain of the module as written has no transition to
    count: [monitor] with [strict=True] raises [NameError] on every
    input, so no template is returned in which the location [base] is the
    source of two transitions. *)
Theorem strict_monitor_degrees_as_written :
  (forall name signals base,
     monitor module_globals name signals base true = Raise NameError) /\
  (forall name signals base,
     (1 <= List.length signals)%nat ->
     ~ exists t, monitor module_globals name signals base true = Ok t /\
         out_degree t (id_ref base) = 2%nat) /\
  monitor module_globals "Monitor" two_signals 1 true = Raise NameError.
Proof.
  split; [intros; apply monitor_as_written|].
  split; [|reflexivity].
  intros name signals base _ (t & H & _).
  rewrite monitor_as_written in H. discriminate.
Qed.

(** C10: in the module as written the strict synthesis never reaches a
    [replace]: on every input, with or without a [None] invariant or
    guard, it raises [NameError], which is not [AttributeError]; so it
    does on the list whose second invariant is [None]. *)
Theorem strict_monitor_none_as_written :
  (forall name signals base,
     monitor module_globals name signals base true = Raise NameError /\
     monitor module_globals name signals base true <> Raise AttributeError /\
     strict_monitor module_globals name signals base <> Raise AttributeError) /\
  nth_error untimed_second 1
    = Some (mkObservation (Some "sigB?") (Some "gclk>=2") None) /\
  monitor module_globals "Monitor" untimed_second 1 true = Raise NameError.
Proof.
  split; [|split; reflexivity].
  intros name signals base. rewrite monitor_as_written, strict_monitor_as_written.
  repeat split; discriminate.
Qed.


(** C4 as stated, refuted: in the module as written the call on the
    two-signal chain and the alphabet with one entry per signal, where
    [n * (k - 1)] is two, raises [NameError] and returns no template with
    two traps; and where the name is bound, the chain of one signal and
    the alphabet that holds that signal under two keys, where
    [n * (k - 1)] is one, gets no trap. *)
Lemma allpatterns_count_refuted :
  (forall o, In o two_signals -> occurs o exact_alphabet) /\
  (List.length two_signals * (List.length exact_alphabet - 1))%nat = 2%nat /\
  monitor_allpatterns module_globals "Monitor" two_signals 1 exact_alphabet
    = Raise NameError /\
  (~ exists t,
       monitor_allpatterns module_globals "Monitor" two_signals 1 exact_alphabet
         = Ok t /\
       List.length (trap_locations_of (List.length two_signals) t) = 2%nat) /\
  (forall o, In o one_signal -> occurs o repeated_alphabet) /\
  (List.length one_signal * (List.length repeated_alphabet - 1))%nat = 1%nat /\
  exists t,
    monitor_allpatterns aliased_globals "Monitor" one_signal 0 repeated_alphabet
      = Ok t /\
    List.length (trap_locations_of (List.length one_signal) t) = 0%nat.
Proof.
  split.
  { intros o [<-|[<-|[]]].
    - exists "sigA!". split; [now left | reflexivity].
    - exists "sigB!". split; [right; now left | reflexivity]. }
  split; [reflexivity|]. split; [reflexivity|]. split.
  { intros (t & H & _). discriminate. }
  split.
  { intros o [<-|[]]. exists "sigA!". split; [now left | reflexivity]. }
  split; [reflexivity|].
  eexists. split; [vm_compute; reflexivity | reflexivity].
Qed.

(** C6 as stated, refuted: in the module as written the call on the
    two-signal chain raises [NameError] and returns no template whose
    location 0 carries the invariant [gclk<=10]; and where the name is
    bound, location 0 of the returned template has no invariant and
    transition 0 no guard. *)
Lemma allpatterns_invariant_refuted :
  nth_error two_signals 0
    = Some (mkObservation (Some "sigA?") (Some "gclk>=5") (Some "gclk<=10")) /\
  monitor_allpatterns module_globals "Monitor" two_signals 1 exact_alphabet
    = Raise NameError /\
  (~ exists t l,
       monitor_allpatterns module_globals "Monitor" two_signals 1 exact_alphabet
         = Ok t /\
       nth_error (locations_of t) 0 = Some l /\
       invariant_of l = Some "gclk<=10") /\
  exists t l tr,
    monitor_allpatterns aliased_globals "Monitor" two_signals 1 exact_alphabet = Ok t /\
    nth_error (locations_of t) 0 = Some l /\
    nth_error (transitions_of t) 0 = Some tr /\
    invariant_of l = None /\ guard_of tr = None.
Proof.
  split; [reflexivity|]. split; [reflexivity|]. split.
  { intros (t & l & H & _). discriminate. }
  do 3 eexists. split; [vm_compute; reflexivity|].
  repeat split; reflexivity.
Qed.
